(** * rltime: the LSTM module with multi-sample state handling

    A shallow embedding of [rltime/models/torch/modules/lstm.py]
    ([LSTM.forward] and [LSTM.get_state]) and the properties of its
    state flow: episode resets, multi-sample expand/reduce timing,
    output and state shapes, and the state cache.

    Numbers.  The module computes on float32 tensors.  Here a scalar is
    an exact rational ([Qc], rationals in lowest terms, with Leibniz
    equality): rounding, infinities and NaN are outside the model.

    Tensors.  A 2-D tensor is the list of its rows, a 1-D tensor a list
    of scalars.  Every [view] of the source regroups contiguous data and
    is written with [view_rows], after the element-count check that
    torch performs.  A list of rows carries no width when it is empty:
    the width assertions of lines 53-54 pass on a tensor of no rows, which
    [forward] rejects on line 58 in any case.

    Integers.  [timesteps] and the row counts are natural numbers; the
    divisions of the source raise on a zero divisor.

    Exceptions.  A computation returns a value or raises; [forward] and
    [get_state] also return the module as the call leaves it.

    The log.  The timestep loop records, for each iteration, the values it
    went through ([step_log]), so that what reaches the cell and when the
    state is expanded or reduced can be stated on a run. *)

From Stdlib Require Import List Bool Arith PeanoNat ZArith Lia.
From Stdlib Require Import QArith Qcanon.
Import ListNotations.

Set Implicit Arguments.

Local Open Scope nat_scope.

(** ** Exceptions *)

Inductive exn : Type :=
| AssertionError
| ZeroDivisionError
| RuntimeError
| IndexError
| ValueError
| AttributeError.

Inductive result (A : Type) : Type :=
| Ok (a : A)
| Raise (e : exn).

Arguments Ok {A} a.
Arguments Raise {A} e.

Definition bind {A B : Type} (m : result A) (k : A -> result B) : result B :=
  match m with
  | Ok a => k a
  | Raise e => Raise e
  end.

Notation "x <- m ;; k" := (bind m (fun x => k))
  (at level 61, m at next level, right associativity).
Notation "' p <- m ;; k" := (bind m (fun x => let p := x in k))
  (at level 61, p pattern, m at next level, right associativity).

(** [assert(b)] *)
Definition assert (b : bool) : result unit :=
  if b then Ok tt else Raise AssertionError.

(** [a // b] and [a % b] on non-negative ints *)
Definition floordiv (a b : nat) : result nat :=
  if b =? 0 then Raise ZeroDivisionError else Ok (a / b).

Definition pymod (a b : nat) : result nat :=
  if b =? 0 then Raise ZeroDivisionError else Ok (a mod b).

(** ** Tensors *)

Abbreviation row := (list Qc) (only parsing).
Abbreviation matrix := (list (list Qc)) (only parsing).

(** The state of the recurrent cell: the pair (hx, cx). *)
Abbreviation state :=
  (list (list Qc) * list (list Qc))%type (only parsing).

(** [view_rows n k l]: the contiguous data [l] seen as [n] groups of [k]
    consecutive elements. *)
Fixpoint view_rows {A : Type} (n k : nat) (l : list A) : list (list A) :=
  match n with
  | 0 => []
  | S n' => firstn k l :: view_rows n' k (skipn k l)
  end.

(** number of elements of a 2-D tensor *)
Definition numel (m : matrix) : nat := length (concat m).

(** [m.shape[1] == w], row by row *)
Definition has_width (w : nat) (m : matrix) : bool :=
  forallb (fun r => length r =? w) m.

(** Modelled from the spec: [repeat_interleave(x, repeats, dim=0)], imported
    from [rltime/models/torch/utils.py], which is not among the sources.
    The spec (4.4): interleaved repeat along the batch axis, row [i] of the
    input becomes rows [[i*factor, (i+1)*factor)] of the output, not a
    block tiling of the whole state. *)
Fixpoint repeat_interleave {A : Type} (x : list A) (repeats : nat) : list A :=
  match x with
  | [] => []
  | a :: x' => repeat a repeats ++ repeat_interleave x' repeats
  end.

(** Scaling one row by a scalar. *)
Definition scale (r : row) (s : Qc) : row := map (fun v => (v * s)%Qc) r.

(** [h * mask[:, None]] for [h] of shape [n, u] and [mask] of shape [m],
    with the broadcasting of torch and numpy on the row axis: the row
    counts agree, or one of them is 1 and is repeated. *)
Definition mul_mask (h : matrix) (mask : list Qc) : result matrix :=
  if length h =? length mask then
    Ok (map (fun p => scale (fst p) (snd p)) (combine h mask))
  else if length h =? 1 then
    Ok (map (fun s => scale (hd [] h) s) mask)
  else if length mask =? 1 then
    Ok (map (fun r => scale r (hd 0%Qc mask)) h)
  else Raise ValueError.

(** [1 - initial] *)
Definition one_minus (initial : list Qc) : list Qc :=
  map (fun v => (1 - v)%Qc) initial.

(** Element-wise sum of two rows. *)
Fixpoint vadd (a b : row) : row :=
  match a, b with
  | x :: a', y :: b' => (x + y)%Qc :: vadd a' b'
  | _, _ => []
  end.

(** A natural number as a scalar. *)
Definition of_nat (n : nat) : Qc := Q2Qc (inject_Z (Z.of_nat n)).

(** [g.mean(0)] for a group [g] of rows of width [w]. *)
Definition mean_rows (w : nat) (g : list row) : row :=
  map (fun s => (s / of_nat (length g))%Qc)
      (fold_left vadd g (repeat 0%Qc w)).

(** [m.view(-1, k, w).mean(1)] for [m] of shape [n, w]. *)
Definition view_mean (w k : nat) (m : matrix) : result matrix :=
  if k * w =? 0 then Raise RuntimeError
  else if length m mod k =? 0 then
    Ok (map (mean_rows w) (view_rows (length m / k) k m))
  else Raise RuntimeError.

(** [torch.cat(out)]: the tensors are joined along the row axis; they must
    agree on the width, and the list must not be empty. *)
Definition torch_cat (out : list matrix) : result matrix :=
  match concat out with
  | [] => match out with [] => Raise RuntimeError | _ => Ok [] end
  | r :: rest =>
      if has_width (length r) rest then Ok (r :: rest) else Raise RuntimeError
  end.

(** [x.view(-1, inp_size)]: the data of [x] in rows of [inp_size]. *)
Definition flatten (inp_size : nat) (x : matrix) : result matrix :=
  if inp_size =? 0 then Raise RuntimeError
  else if numel x mod inp_size =? 0 then
    Ok (view_rows (numel x / inp_size) inp_size (concat x))
  else Raise RuntimeError.

(** [m.view(timesteps, b, u)[0, ...]]: the rows of timestep 0. *)
Definition view_first (timesteps b u : nat) (m : matrix) : result matrix :=
  if numel m =? timesteps * b * u then
    if timesteps =? 0 then Raise IndexError
    else Ok (view_rows b u (concat m))
  else Raise RuntimeError.

(** [x.view((timesteps, batch_size) + x.shape[1:])] for [x] of shape
    [n, w]: one group of [batch_size] rows per timestep. *)
Definition view_timesteps (timesteps batch_size w : nat) (x : matrix)
  : result (list matrix) :=
  if numel x =? timesteps * batch_size * w then
    Ok (view_rows timesteps batch_size x)
  else Raise RuntimeError.

(** [initials.view((timesteps, batch_size))] *)
Definition view_initials (timesteps batch_size : nat) (initials : list Qc)
  : result (list (list Qc)) :=
  if length initials =? timesteps * batch_size then
    Ok (view_rows timesteps batch_size initials)
  else Raise RuntimeError.

(** ** The module *)

Inductive merge_mode : Type := outer | inner.

Definition is_inner (m : merge_mode) : bool :=
  match m with inner => true | outer => false end.

(** What [last_state] holds is a pair of torch tensors after [forward] and
    after the lazy creation in [get_state], and a pair of numpy arrays after
    line 153 of [get_state]. *)
Inductive array : Type :=
| Tensor (m : matrix)
| NDArray (m : matrix).

Record LSTM : Type := {
  inp_size : nat;
  num_units : nat;
  multi_sample_merge_mode : merge_mode;
  last_state : option (array * array)
}.

(** [LSTM(inp_shape, num_units, multi_sample_merge_mode)]; the assertion on
    the merge mode holds by the type of [mode]. *)
Definition init (inp : nat) (units : nat) (mode : merge_mode) : LSTM :=
  {| inp_size := inp; num_units := units;
     multi_sample_merge_mode := mode; last_state := None |}.

Definition set_last_state (self : LSTM) (s : option (array * array)) : LSTM :=
  {| inp_size := inp_size self; num_units := num_units self;
     multi_sample_merge_mode := multi_sample_merge_mode self;
     last_state := s |}.

(** What one iteration of the timestep loop did: a record of the values
    the iteration went through, in the order of the source. *)
Record step_log : Type := {
  log_i : nat;                (* the index [i] of the iteration *)
  log_x : matrix;             (* the input rows of this timestep *)
  log_initial : list Qc;      (* the initials of this timestep *)
  log_carried : state;        (* (hx, cx) on entry *)
  log_expanded : bool;        (* lines 90-91 were run *)
  log_pre : state;            (* (hx, cx) before the reset *)
  log_fed : state;            (* (hx, cx) passed to the cell *)
  log_cell : state;           (* (hx, cx) returned by the cell *)
  log_reduced : bool;         (* lines 115-116 were run *)
  log_next : state            (* (hx, cx) on exit *)
}.

(** The outcome of the body of [forward]. *)
Record run : Type := {
  run_multi_sample : nat;     (* the local [multi_sample] *)
  run_batch_size : nat;       (* the local [batch_size] *)
  run_out : matrix;
  run_state : state;
  run_log : list step_log
}.

Section Forward.

(** The recurrent cell [self.lstm_cell], a [torch.nn.LSTMCell] with its
    weights: an opaque function of the input rows and the state, which
    may raise. *)
Variable lstm_cell : matrix -> state -> result state.

Section Loop.

Variable self : LSTM.
Variable multi_sample : nat.
Variable timesteps : nat.

(** the condition of lines 85-86 *)
Definition expand_cond (i : nat) : bool :=
  (1 <? multi_sample) &&
  ((i =? 0) || is_inner (multi_sample_merge_mode self)).

(** the condition of lines 105-107 *)
Definition reduce_cond (i : nat) : bool :=
  (1 <? multi_sample) &&
  ((i =? timesteps - 1) || is_inner (multi_sample_merge_mode self)).

(** Lines 85-116: one iteration of the timestep loop.  It returns the
    output appended to [out], the state carried on, and the record of
    the iteration.  [hx.shape[-1]] on line 115 is the hidden size the
    cell was built with, [num_units] (line 43). *)
Definition timestep (i : nat) (x : matrix) (initial : list Qc) (s : state)
  : result (matrix * state * step_log) :=
  let '(hx, cx) := s in
  let '(hx1, cx1, expanded) :=
    if expand_cond i
    then (repeat_interleave hx multi_sample,
          repeat_interleave cx multi_sample, true)
    else (hx, cx, false) in
  hx2 <- mul_mask hx1 (one_minus initial) ;;
  cx2 <- mul_mask cx1 (one_minus initial) ;;
  '(hx3, cx3) <- lstm_cell x (hx2, cx2) ;;
  '(hx4, cx4, reduced) <-
    (if reduce_cond i
     then hx4 <- view_mean (num_units self) multi_sample hx3 ;;
          cx4 <- view_mean (num_units self) multi_sample cx3 ;;
          Ok (hx4, cx4, true)
     else Ok (hx3, cx3, false)) ;;
  Ok (hx3, (hx4, cx4),
      {| log_i := i; log_x := x; log_initial := initial;
         log_carried := (hx, cx); log_expanded := expanded;
         log_pre := (hx1, cx1); log_fed := (hx2, cx2);
         log_cell := (hx3, cx3); log_reduced := reduced;
         log_next := (hx4, cx4) |}).

(** Lines 82-116: [for i, (x, initial) in enumerate(zip(x, initials))],
    from index [i] on.  The outputs come back in timestep order. *)
Fixpoint timestep_loop (i : nat) (xs : list (matrix * list Qc)) (s : state)
  : result (list matrix * state * list step_log) :=
  match xs with
  | [] => Ok ([], s, [])
  | (x, initial) :: rest =>
      '(o, s1, e) <- timestep i x initial s ;;
      '(out, s2, es) <- timestep_loop (S i) rest s1 ;;
      Ok (o :: out, s2, e :: es)
  end.

(** [e] records an iteration of the loop that returned. *)
Record iteration (e : step_log) : Prop := {
  it_expanded :
    log_expanded e = expand_cond (log_i e);
  it_pre :
    log_pre e =
    if log_expanded e
    then (repeat_interleave (fst (log_carried e)) multi_sample,
          repeat_interleave (snd (log_carried e)) multi_sample)
    else log_carried e;
  it_fed_h :
    mul_mask (fst (log_pre e)) (one_minus (log_initial e))
    = Ok (fst (log_fed e));
  it_fed_c :
    mul_mask (snd (log_pre e)) (one_minus (log_initial e))
    = Ok (snd (log_fed e));
  it_cell : lstm_cell (log_x e) (log_fed e) = Ok (log_cell e);
  it_reduced :
    log_reduced e = reduce_cond (log_i e);
  it_next :
    if log_reduced e
    then view_mean (num_units self) multi_sample (fst (log_cell e))
         = Ok (fst (log_next e)) /\
         view_mean (num_units self) multi_sample (snd (log_cell e))
         = Ok (snd (log_next e))
    else log_next e = log_cell e
}.

(** The state is handed from each iteration to the next. *)
Fixpoint chained (s : state) (es : list step_log) (s' : state) : Prop :=
  match es with
  | [] => s' = s
  | e :: es' => log_carried e = s /\ chained (log_next e) es' s'
  end.

End Loop.

(** Lines 51-117 of [forward]. *)
Definition forward_body (self : LSTM) (x hx cx : matrix)
           (initials : list Qc) (timesteps : nat) : result run :=
  x <- flatten (inp_size self) x ;;
  _ <- assert (has_width (num_units self) hx) ;;
  _ <- assert (has_width (num_units self) cx) ;;
  r <- pymod (length x) (length hx) ;;
  _ <- assert (r =? 0) ;;
  multi_sample <- floordiv (length x) (length hx) ;;
  batch_size <- floordiv (length x) timesteps ;;
  b <- floordiv batch_size multi_sample ;;
  hx <- view_first timesteps b (num_units self) hx ;;
  b <- floordiv batch_size multi_sample ;;
  cx <- view_first timesteps b (num_units self) cx ;;
  xs <- view_timesteps timesteps batch_size (inp_size self) x ;;
  n <- floordiv (batch_size * timesteps) multi_sample ;;
  _ <- assert (length initials =? n) ;;
  let initials :=
    if 1 <? multi_sample then repeat_interleave initials multi_sample
    else initials in
  initials <- view_initials timesteps batch_size initials ;;
  '(out, s, es) <-
    timestep_loop self multi_sample timesteps 0 (combine xs initials)
                  (hx, cx) ;;
  out <- torch_cat out ;;
  Ok {| run_multi_sample := multi_sample; run_batch_size := batch_size;
        run_out := out; run_state := s; run_log := es |}.

(** [forward]: the output, and the module with [last_state] set to the
    final state (line 120).  An exception leaves the module as it was. *)
Definition forward (self : LSTM) (x hx cx : matrix)
           (initials : list Qc) (timesteps : nat) : result matrix * LSTM :=
  match forward_body self x hx cx initials timesteps with
  | Ok r =>
      (Ok (run_out r),
       set_last_state self
         (Some (Tensor (fst (run_state r)), Tensor (snd (run_state r)))))
  | Raise e => (Raise e, self)
  end.

End Forward.

(** ** [get_state] *)

(** [initials.astype("float32")] on a boolean array *)
Definition astype_float32 (initials : list bool) : list Qc :=
  map (fun b : bool => if b then 1%Qc else 0%Qc) initials.

(** [np.all(a)]: no entry is zero *)
Definition np_all (a : list Qc) : bool :=
  forallb (fun v => negb (Qc_eq_bool v 0%Qc)) a.

(** [torch.zeros((n, w))] *)
Definition zeros (n w : nat) : matrix := repeat (repeat 0%Qc w) n.

(** [a.cpu().numpy()]: a method of torch tensors; a numpy array has no
    attribute [cpu]. *)
Definition cpu_numpy (a : array) : result matrix :=
  match a with
  | Tensor m => Ok m
  | NDArray _ => Raise AttributeError
  end.

(** The dictionary returned by [get_state]. *)
Record state_dict : Type := {
  sd_hx : matrix;
  sd_cx : matrix;
  sd_initials : list Qc
}.

(** [get_state]: the result, and the module after the call.  The module is
    updated on lines 149 and 153, also when a later line raises. *)
Definition get_state (self : LSTM) (initials : list bool)
  : result state_dict * LSTM :=
  let initials := astype_float32 initials in
  let batch_size := length initials in
  (* lines 144-150 *)
  let created :=
    match last_state self with
    | None =>
        _ <- assert (np_all initials) ;;
        let z := (Tensor (zeros batch_size (num_units self)),
                  Tensor (zeros batch_size (num_units self))) in
        Ok (set_last_state self (Some z), z)
    | Some st => Ok (self, st)
    end in
  match created with
  | Raise e => (Raise e, self)
  | Ok (self1, (hx, cx)) =>
      (* lines 151-153 *)
      let masked :=
        hx <- cpu_numpy hx ;;
        cx <- cpu_numpy cx ;;
        let mask := one_minus initials in
        hm <- mul_mask hx mask ;;
        cm <- mul_mask cx mask ;;
        Ok (hm, cm) in
      match masked with
      | Raise e => (Raise e, self1)
      | Ok (hm, cm) =>
          let self2 :=
            set_last_state self1 (Some (NDArray hm, NDArray cm)) in
          (* lines 155-161 *)
          match (_ <- assert (length hm =? batch_size) ;;
                 assert (length cm =? batch_size)) with
          | Raise e => (Raise e, self2)
          | Ok _ =>
              (Ok {| sd_hx := hm; sd_cx := cm; sd_initials := initials |},
               self2)
          end
      end
  end.

(** ** A concrete cell

    A small cell to run the module on: it checks the batch sizes as the
    torch cell does, adds to every entry of a row of [hx] one plus the sum
    of the input row, and adds [hx] to [cx]. *)

Definition row_sum (r : row) : Qc := fold_right Qcplus 0%Qc r.

Definition demo_cell (x : matrix) (s : state) : result state :=
  let '(hx, cx) := s in
  if (length hx =? length x) && (length cx =? length x) then
    Ok (map (fun p => map (fun v => (v + (1 + row_sum (snd p)))%Qc) (fst p))
            (combine hx x),
        map (fun p => vadd (fst p) (snd p)) (combine cx hx))
  else Raise RuntimeError.

(** ** The contract of the cell

    [torch.nn.LSTMCell] rejects a state whose batch size is not that of
    the input, and returns a state of the batch size of the input. *)

Definition cell_contract (cell : matrix -> state -> result state) : Prop :=
  forall x h c h' c',
    cell x (h, c) = Ok (h', c') ->
    length h = length x /\ length c = length x /\
    length h' = length x /\ length c' = length x.

(** The row counts an iteration sees. *)
Definition rows_ok (bs : nat) (e : step_log) : Prop :=
  length (fst (log_pre e)) = bs /\ length (snd (log_pre e)) = bs /\
  length (fst (log_fed e)) = bs /\ length (snd (log_fed e)) = bs /\
  length (fst (log_cell e)) = bs /\ length (snd (log_cell e)) = bs.

(** ** Concrete inputs *)

(** An integer as a scalar. *)
Definition q (z : Z) : Qc := Q2Qc (inject_Z z).

(** The run behind a result, for the runs below, which all return. *)
Definition the_run (res : result run) : run :=
  match res with
  | Ok r => r
  | Raise _ =>
      {| run_multi_sample := 0; run_batch_size := 0; run_out := [];
         run_state := ([], []); run_log := [] |}
  end.

(** The end-to-end scenario of the spec: two units, one sequence, three
    samples, two timesteps, the state seeded with zeros, initials [1, 0]. *)
Definition scenario_x : matrix :=
  [[q 1]; [q 2]; [q 3]; [q 4]; [q 5]; [q 6]].
Definition scenario_seed : matrix := zeros 2 2.
Definition scenario_initials : list Qc := [q 1; q 0].

Definition scenario (mode : merge_mode) : result run :=
  forward_body demo_cell (init 1 2 mode) scenario_x scenario_seed
               scenario_seed scenario_initials 2.

(** Two sequences over two timesteps without oversampling; the second
    sequence restarts at the second timestep.  The rows of hx and cx for
    the second timestep are the stored ones, which [forward] does not
    read. *)
Definition episode_self : LSTM := init 1 2 outer.
Definition episode_x : matrix := [[q 1]; [q 2]; [q 3]; [q 4]].
Definition episode_hx : matrix :=
  [[q 5; q 6]; [q 7; q 8]; [q 0; q 0]; [q 0; q 0]].
Definition episode_cx : matrix :=
  [[q 1; q 1]; [q 2; q 2]; [q 0; q 0]; [q 0; q 0]].
Definition episode_initials : list Qc := [q 0; q 0; q 0; q 1].

Definition episode : result run :=
  forward_body demo_cell episode_self episode_x episode_hx episode_cx
               episode_initials 2.

(** One timestep, two sequences, no oversampling. *)
Definition single_x : matrix := [[q 1]; [q 2]].
Definition single_hx : matrix := [[q 5; q 6]; [q 7; q 8]].
Definition single_cx : matrix := [[q 1; q 1]; [q 2; q 2]].
Definition single_initials : list Qc := [q 0; q 0].

(** A module whose cache holds the state of two sequences. *)
Definition cached_self : LSTM :=
  set_last_state (init 1 2 inner) (Some (Tensor single_hx, Tensor single_cx)).

(** A module whose cache holds the state of one sequence. *)
Definition cached_one : LSTM :=
  set_last_state (init 1 2 inner)
                 (Some (Tensor [[q 5; q 6]], Tensor [[q 1; q 1]])).


(** * Properties *)

(** ** The exception monad *)

Lemma bind_Ok (A B : Type) (m : result A) (k : A -> result B) (b : B) :
  bind m k = Ok b -> exists a, m = Ok a /\ k a = Ok b.
Proof.
  destruct m as [a|e]; simpl; intros H; [exists a; auto | discriminate].
Qed.

Lemma assert_Ok (b : bool) (u : unit) : assert b = Ok u -> b = true.
Proof. destruct b; simpl; [reflexivity | discriminate]. Qed.

Lemma floordiv_Ok (a b q : nat) :
  floordiv a b = Ok q -> b <> 0 /\ q = a / b.
Proof.
  unfold floordiv. destruct (Nat.eqb_spec b 0); [discriminate|].
  intros H; injection H as <-; auto.
Qed.

Lemma pymod_Ok (a b q : nat) :
  pymod a b = Ok q -> b <> 0 /\ q = a mod b.
Proof.
  unfold pymod. destruct (Nat.eqb_spec b 0); [discriminate|].
  intros H; injection H as <-; auto.
Qed.

(** Splits a successful sequence of binds in a hypothesis. *)
Tactic Notation "bind_inv" hyp(H) "as" simple_intropattern(a) ident(Ha) :=
  apply bind_Ok in H; destruct H as (a & Ha & H); simpl in H.

(** ** Views *)

Lemma length_view_rows (A : Type) (n k : nat) (l : list A) :
  length (view_rows n k l) = n.
Proof.
  revert l; induction n as [|n IH]; intros l; simpl; [reflexivity|].
  now rewrite IH.
Qed.

Lemma view_rows_group_length (A : Type) (n k : nat) (l : list A) (g : list A) :
  n * k <= length l -> In g (view_rows n k l) -> length g = k.
Proof.
  revert l; induction n as [|n IH]; intros l Hl; simpl; [tauto|].
  simpl in Hl. intros [<-|Hin].
  - rewrite length_firstn. lia.
  - apply (IH (skipn k l)); [rewrite length_skipn; lia | exact Hin].
Qed.

Lemma nth_error_view_rows (A : Type) (n k : nat) (l : list A) (j : nat) :
  j < n ->
  nth_error (view_rows n k l) j = Some (firstn k (skipn (j * k) l)).
Proof.
  revert l j; induction n as [|n IH]; intros l j Hj; [lia|].
  destruct j as [|j]; simpl; [reflexivity|].
  rewrite IH by lia. now rewrite skipn_skipn, (Nat.add_comm (j * k) k).
Qed.

Lemma concat_view_rows (A : Type) (n k : nat) (l : list A) :
  concat (view_rows n k l) = firstn (n * k) l.
Proof.
  revert l; induction n as [|n IH]; intros l; simpl; [reflexivity|].
  rewrite IH. rewrite <- (firstn_skipn k l) at 3.
  destruct (Nat.le_gt_cases k (length l)) as [Hk|Hk].
  - rewrite firstn_app, length_firstn, Nat.min_l by exact Hk.
    rewrite (firstn_all2 (n:=k + n * k)) by (rewrite length_firstn; lia).
    now replace (k + n * k - k) with (n * k) by lia.
  - rewrite (skipn_all2 (n:=k)) by lia.
    rewrite firstn_nil, !app_nil_r.
    rewrite (firstn_all2 (n:=k + n * k)); [reflexivity|].
    rewrite length_firstn; lia.
Qed.

Lemma has_width_Forall (w : nat) (m : matrix) :
  has_width w m = true <-> Forall (fun r => length r = w) m.
Proof.
  unfold has_width. rewrite forallb_forall, Forall_forall.
  split; intros H r Hr; specialize (H r Hr);
    [now apply Nat.eqb_eq | now apply Nat.eqb_eq].
Qed.

Lemma length_concat_width (w : nat) (m : matrix) :
  Forall (fun r => length r = w) m -> numel m = length m * w.
Proof.
  unfold numel. induction 1 as [|r m Hr _ IH]; simpl; [reflexivity|].
  rewrite length_app, IH, Hr. reflexivity.
Qed.

(** The rows of a tensor of width [w], read back from its data. *)
Lemma view_rows_concat (w : nat) (m : matrix) (b : nat) :
  Forall (fun r => length r = w) m ->
  view_rows b w (concat m) = firstn b m ++ repeat [] (b - length m).
Proof.
  intros Hm; revert b; induction Hm as [|r m Hr Hm IH]; intros b.
  - simpl. rewrite firstn_nil, Nat.sub_0_r. simpl.
    induction b as [|b IHb]; simpl; [reflexivity|].
    now rewrite firstn_nil, skipn_nil, IHb.
  - destruct b as [|b]; simpl; [reflexivity|]. subst w.
    rewrite firstn_app, firstn_all, Nat.sub_diag. simpl.
    rewrite app_nil_r.
    rewrite skipn_app, skipn_all, Nat.sub_diag. simpl.
    now rewrite IH.
Qed.

Lemma view_rows_concat_firstn (w : nat) (m : matrix) (b : nat) :
  Forall (fun r => length r = w) m -> b <= length m ->
  view_rows b w (concat m) = firstn b m.
Proof.
  intros Hm Hb. rewrite (view_rows_concat b Hm).
  replace (b - length m) with 0 by lia. simpl. apply app_nil_r.
Qed.

(** ** Interleaved repeat *)

Lemma length_repeat_interleave (A : Type) (x : list A) (k : nat) :
  length (repeat_interleave x k) = length x * k.
Proof.
  induction x as [|a x IH]; simpl; [reflexivity|].
  now rewrite length_app, repeat_length, IH.
Qed.

(** Row [j] of the expansion is row [j / k] of the original: the copies of
    a row are contiguous. *)
Lemma nth_error_repeat_interleave (A : Type) (x : list A) (k j : nat) :
  0 < k ->
  nth_error (repeat_interleave x k) j = nth_error x (j / k).
Proof.
  intros Hk; revert j; induction x as [|a x IH]; intros j; simpl.
  - now rewrite !nth_error_nil.
  - destruct (Nat.lt_ge_cases j k) as [Hj|Hj].
    + rewrite nth_error_app1 by (rewrite repeat_length; exact Hj).
      rewrite Nat.div_small by exact Hj. simpl.
      apply nth_error_repeat; exact Hj.
    + rewrite nth_error_app2 by (rewrite repeat_length; exact Hj).
      rewrite repeat_length, IH.
      replace j with ((j - k) + 1 * k) at 2 by lia.
      rewrite Nat.div_add by lia.
      now rewrite Nat.add_1_r.
Qed.


(** ** The reset mask *)

Lemma one_minus_one : (1 - 1)%Qc = 0%Qc.
Proof. ring. Qed.

Lemma one_minus_zero : (1 - 0)%Qc = 1%Qc.
Proof. ring. Qed.

Lemma scale_zero (r : row) : Forall (fun v => v = 0%Qc) (scale r 0%Qc).
Proof.
  unfold scale. apply Forall_forall. intros v Hv.
  apply in_map_iff in Hv. destruct Hv as (a & <- & _). apply Qcmult_0_r.
Qed.

Lemma scale_one (r : row) : scale r 1%Qc = r.
Proof.
  unfold scale. induction r as [|a r IH]; simpl; [reflexivity|].
  now rewrite Qcmult_1_r, IH.
Qed.

Lemma length_one_minus (initial : list Qc) :
  length (one_minus initial) = length initial.
Proof. apply length_map. Qed.

Lemma nth_error_one_minus (initial : list Qc) (j : nat) :
  nth_error (one_minus initial) j
  = option_map (fun v => (1 - v)%Qc) (nth_error initial j).
Proof. apply nth_error_map. Qed.

(** Without broadcasting, row [j] of the product is row [j] scaled by
    entry [j] of the mask. *)
Lemma mul_mask_rows (h : matrix) (mask : list Qc) (f : matrix) :
  length h = length mask ->
  mul_mask h mask = Ok f ->
  length f = length h /\
  forall j r s, nth_error h j = Some r -> nth_error mask j = Some s ->
                nth_error f j = Some (scale r s).
Proof.
  intros Hlen. unfold mul_mask. rewrite Hlen, Nat.eqb_refl.
  intros H; injection H as <-. split.
  - rewrite length_map, length_combine. lia.
  - intros j r s Hr Hs. rewrite nth_error_map.
    assert (Hc : nth_error (combine h mask) j = Some (r, s)).
    { clear Hlen. revert h mask Hr Hs.
      induction j as [|j IH]; intros [|a h] [|b mask]; simpl; try discriminate.
      - now intros [= ->] [= ->].
      - apply IH. }
    now rewrite Hc.
Qed.


Lemma length_mul_mask (h : matrix) (mask : list Qc) (f : matrix) :
  mul_mask h mask = Ok f ->
  length f = length h \/ (length h = 1 /\ length f = length mask).
Proof.
  unfold mul_mask.
  destruct (Nat.eqb_spec (length h) (length mask)) as [E|_].
  { intros [= <-]. left. rewrite length_map, length_combine. lia. }
  destruct (Nat.eqb_spec (length h) 1) as [E1|_].
  { intros [= <-]. right. now rewrite length_map. }
  destruct (length mask =? 1); [|discriminate].
  intros [= <-]. left. now rewrite length_map.
Qed.

(** ** The timestep loop *)

Section LoopFacts.

Variable lstm_cell : matrix -> state -> result state.
Variable self : LSTM.
Variable multi_sample : nat.
Variable timesteps : nat.

Lemma timestep_Ok (i : nat) (x : matrix) (initial : list Qc) (s : state)
      (o : matrix) (s1 : state) (e : step_log) :
  timestep lstm_cell self multi_sample timesteps i x initial s
  = Ok (o, s1, e) ->
  iteration lstm_cell self multi_sample timesteps e /\ log_i e = i /\ log_x e = x /\ log_initial e = initial /\
  log_carried e = s /\ o = fst (log_cell e) /\ s1 = log_next e.
Proof.
  unfold timestep. destruct s as [hx cx].
  set (pre := if expand_cond self multi_sample i
              then (repeat_interleave hx multi_sample,
                    repeat_interleave cx multi_sample, true)
              else (hx, cx, false)).
  assert (Hpre : pre = (if expand_cond self multi_sample i
                        then (repeat_interleave hx multi_sample,
                              repeat_interleave cx multi_sample)
                        else (hx, cx),
                        expand_cond self multi_sample i))
    by (subst pre; destruct (expand_cond self multi_sample i); reflexivity).
  destruct pre as [[hx1 cx1] ex]. injection Hpre as Hpre ->.
  intros H. bind_inv H as hx2 Eh. bind_inv H as cx2 Ec.
  bind_inv H as [hx3 cx3] Ecell. bind_inv H as [[hx4 cx4] red] Ered.
  injection H as <- <- <-.
  assert (Hred : red = reduce_cond self multi_sample timesteps i /\
                 if red
                 then view_mean (num_units self) multi_sample hx3 = Ok hx4 /\
                      view_mean (num_units self) multi_sample cx3 = Ok cx4
                 else (hx4, cx4) = (hx3, cx3)).
  { destruct (reduce_cond self multi_sample timesteps i).
    - bind_inv Ered as h4 E1. bind_inv Ered as c4 E2.
      injection Ered as <- <- <-. auto.
    - injection Ered as <- <- <-. auto. }
  destruct Hred as [-> Hnext].
  assert (Hp : (hx1, cx1) =
               if expand_cond self multi_sample i
               then (repeat_interleave hx multi_sample,
                     repeat_interleave cx multi_sample)
               else (hx, cx))
    by (destruct (expand_cond self multi_sample i);
        injection Hpre as -> ->; reflexivity).
  repeat split; simpl; auto.
Qed.

Lemma timestep_loop_Ok (xs : list (matrix * list Qc)) :
  forall (i : nat) (s : state) (out : list matrix) (s' : state)
         (es : list step_log),
    timestep_loop lstm_cell self multi_sample timesteps i xs s
    = Ok (out, s', es) ->
    length es = length xs /\
    out = map (fun e => fst (log_cell e)) es /\
    Forall (iteration lstm_cell self multi_sample timesteps) es /\
    chained s es s' /\
    forall k e, nth_error es k = Some e ->
                log_i e = i + k /\
                nth_error xs k = Some (log_x e, log_initial e).
Proof.
  induction xs as [|[x initial] xs IH]; intros i s out s' es; simpl.
  - intros [= <- <- <-]. do 4 (split; [simpl; auto|]).
    intros k e. now rewrite nth_error_nil.
  - intros H. bind_inv H as [[o s1] e] E.
    bind_inv H as [[out' s2] es'] E0. injection H as <- <- <-.
    apply timestep_Ok in E.
    destruct E as (Hit & Hi & Hx & Hini & Hc & -> & ->).
    apply IH in E0. destruct E0 as (Hlen & -> & Hall & Hch & Hk).
    split; [simpl; auto|]. split; [reflexivity|].
    split; [constructor; assumption|]. split; [simpl; auto|].
    intros [|k] e' He'; simpl in He'.
    + injection He' as <-. split; [lia | simpl; congruence].
    + apply Hk in He'. destruct He' as [Hi' Hn]. split; [lia | exact Hn].
Qed.

End LoopFacts.

(** ** The body of [forward] *)

Lemma flatten_Ok (inp : nat) (x x' : matrix) :
  flatten inp x = Ok x' ->
  inp <> 0 /\ Forall (fun r => length r = inp) x' /\
  length x' = numel x / inp.
Proof.
  unfold flatten. destruct (Nat.eqb_spec inp 0) as [|Hinp]; [discriminate|].
  destruct (Nat.eqb_spec (numel x mod inp) 0) as [Hmod|]; [|discriminate].
  intros [= <-]. split; [exact Hinp|]. split.
  - apply Forall_forall. intros g Hg.
    apply view_rows_group_length in Hg; [exact Hg|].
    unfold numel. rewrite Nat.mul_comm. now apply Nat.Div0.mul_div_le.
  - apply length_view_rows.
Qed.

Lemma nth_error_combine (A B : Type) (l : list A) (l' : list B) (k : nat)
      (a : A) (b : B) :
  nth_error (combine l l') k = Some (a, b) ->
  nth_error l k = Some a /\ nth_error l' k = Some b.
Proof.
  revert l l'; induction k as [|k IH]; intros [|a0 l] [|b0 l']; simpl;
    try discriminate.
  - now intros [= -> ->].
  - apply IH.
Qed.

Section ForwardFacts.

Variable lstm_cell : matrix -> state -> result state.
Variable self : LSTM.
Variables x hx cx : matrix.
Variable initials : list Qc.
Variable timesteps : nat.
Variable r : run.

Hypothesis Hrun :
  forward_body lstm_cell self x hx cx initials timesteps = Ok r.

Let ms := run_multi_sample r.
Let bs := run_batch_size r.

(** What the checks of lines 52-80 establish, and the loop that ran. *)
Lemma forward_body_Ok :
  exists (x' hx0 cx0 : matrix) (xs : list matrix) (inits : list (list Qc))
         (out : list matrix),
    flatten (inp_size self) x = Ok x' /\
    has_width (num_units self) hx = true /\
    has_width (num_units self) cx = true /\
    length hx <> 0 /\ length x' mod length hx = 0 /\
    ms = length x' / length hx /\
    timesteps <> 0 /\ bs = length x' / timesteps /\ ms <> 0 /\
    view_first timesteps (bs / ms) (num_units self) hx = Ok hx0 /\
    view_first timesteps (bs / ms) (num_units self) cx = Ok cx0 /\
    view_timesteps timesteps bs (inp_size self) x' = Ok xs /\
    length initials = (bs * timesteps) / ms /\
    view_initials timesteps bs
      (if 1 <? ms then repeat_interleave initials ms else initials)
    = Ok inits /\
    timestep_loop lstm_cell self ms timesteps 0 (combine xs inits) (hx0, cx0)
    = Ok (out, run_state r, run_log r) /\
    torch_cat out = Ok (run_out r).
Proof.
  pose proof Hrun as H. unfold forward_body in H.
  bind_inv H as x' Ex. bind_inv H as u1 Ehw. bind_inv H as u2 Ecw.
  bind_inv H as m Emod. bind_inv H as u3 Ezero. bind_inv H as ms' Ems.
  bind_inv H as bs' Ebs. bind_inv H as b1 Eb1. bind_inv H as hx0 Ehx.
  bind_inv H as b2 Eb2. bind_inv H as cx0 Ecx. bind_inv H as xs Exs.
  bind_inv H as n En. bind_inv H as u4 Elen. bind_inv H as inits Einits.
  bind_inv H as [[out s] es] Eloop. bind_inv H as o Ecat.
  injection H as <-. subst ms bs. simpl.
  apply assert_Ok in Ehw, Ecw, Ezero, Elen.
  apply pymod_Ok in Emod. destruct Emod as [Hhx ->].
  apply floordiv_Ok in Ems, Ebs, Eb1, Eb2, En.
  destruct Ems as [_ ->], Ebs as [Ht ->], Eb1 as [Hms ->], Eb2 as [_ ->],
           En as [_ ->].
  apply Nat.eqb_eq in Ezero, Elen.
  exists x', hx0, cx0, xs, inits, out. repeat split; auto.
Qed.

(** The loop runs once per timestep, on groups of [batch_size] rows and
    [batch_size] flags. *)
Lemma forward_body_log :
  length (run_log r) = timesteps /\
  timesteps <> 0 /\ ms <> 0 /\
  Forall (iteration lstm_cell self ms timesteps) (run_log r) /\
  (exists hx0 cx0,
      view_first timesteps (bs / ms) (num_units self) hx = Ok hx0 /\
      view_first timesteps (bs / ms) (num_units self) cx = Ok cx0 /\
      chained (hx0, cx0) (run_log r) (run_state r)) /\
  (exists out, out = map (fun e => fst (log_cell e)) (run_log r) /\
               torch_cat out = Ok (run_out r)) /\
  forall k e, nth_error (run_log r) k = Some e ->
    log_i e = k /\ length (log_x e) = bs /\ length (log_initial e) = bs /\
    log_initial e =
    firstn bs (skipn (k * bs)
                 (if 1 <? ms then repeat_interleave initials ms
                  else initials)).
Proof.
  destruct forward_body_Ok
    as (x' & hx0 & cx0 & xs & inits & out & Ex & Ehw & Ecw & Hhx & Hmod &
        Hms & Ht & Hbs & Hms0 & Ehx & Ecx & Exs & Hlen & Einits & Eloop &
        Ecat).
  apply timestep_loop_Ok in Eloop.
  destruct Eloop as (Hl & Hout & Hall & Hch & Hk).
  apply flatten_Ok in Ex. destruct Ex as (Hinp & Hw & _).
  unfold view_timesteps in Exs. rewrite (length_concat_width Hw) in Exs.
  destruct (Nat.eqb_spec (length x' * inp_size self)
                         (timesteps * bs * inp_size self)) as [Hx'|];
    [|discriminate].
  apply Nat.mul_cancel_r in Hx'; [|exact Hinp]. injection Exs as <-.
  unfold view_initials in Einits.
  destruct (Nat.eqb_spec
              (length (if 1 <? ms then repeat_interleave initials ms
                       else initials)) (timesteps * bs)) as [Hi|];
    [|discriminate].
  injection Einits as <-.
  rewrite length_combine, !length_view_rows, Nat.min_id in Hl.
  split; [exact Hl|]. split; [exact Ht|]. split; [exact Hms0|].
  split; [exact Hall|]. split; [now exists hx0, cx0|].
  split; [now exists out|].
  intros k e He. destruct (Hk k e He) as [Hi' Hn].
  apply nth_error_combine in Hn. destruct Hn as [Hnx Hni].
  assert (Hkt : k < timesteps).
  { rewrite <- Hl. apply nth_error_Some. congruence. }
  rewrite nth_error_view_rows in Hni by exact Hkt.
  injection Hni as Hni. split; [exact Hi'|].
  split.
  { apply nth_error_In in Hnx.
    apply view_rows_group_length in Hnx; [exact Hnx | lia]. }
  split; [|now rewrite Hni].
  rewrite <- Hni, length_firstn, length_skipn, Hi. nia.
Qed.

End ForwardFacts.

Lemma demo_cell_contract : cell_contract demo_cell.
Proof.
  intros x h c h' c'. unfold demo_cell.
  destruct (Nat.eqb_spec (length h) (length x)) as [Hh|]; [|discriminate].
  destruct (Nat.eqb_spec (length c) (length x)) as [Hc|]; [|discriminate].
  simpl. intros [= <- <-].
  rewrite !length_map, !length_combine. lia.
Qed.

Lemma length_view_mean (w k : nat) (m m' : matrix) :
  view_mean w k m = Ok m' -> length m' = length m / k /\ length m mod k = 0.
Proof.
  unfold view_mean. destruct (k * w =? 0); [discriminate|].
  destruct (Nat.eqb_spec (length m mod k) 0) as [Hmod|]; [|discriminate].
  intros [= <-]. now rewrite length_map, length_view_rows.
Qed.

Section Rows.

Variable lstm_cell : matrix -> state -> result state.
Hypothesis Hcell : cell_contract lstm_cell.

Variable self : LSTM.
Variable ms timesteps bs : nat.
Hypothesis Hms : ms <> 0.

Lemma iteration_rows (e : step_log) :
  iteration lstm_cell self ms timesteps e ->
  length (log_x e) = bs -> length (log_initial e) = bs ->
  (log_expanded e = false ->
   length (fst (log_carried e)) = bs /\ length (snd (log_carried e)) = bs) ->
  rows_ok bs e.
Proof.
  intros [Hex Hpre Hfh Hfc Hc Hred Hnext] Hx Hi Hcar.
  destruct (log_fed e) as [fh fc] eqn:Efed.
  destruct (log_cell e) as [oh oc] eqn:Ecell.
  apply Hcell in Hc. destruct Hc as (Hh & Hc & Hh' & Hc'). simpl in *.
  assert (Hp : length (fst (log_pre e)) = bs /\
               length (snd (log_pre e)) = bs).
  { destruct (log_expanded e) eqn:Eex.
    - symmetry in Hex. unfold expand_cond in Hex.
      apply andb_prop in Hex. destruct Hex as [Hgt _].
      apply Nat.ltb_lt in Hgt.
      apply length_mul_mask in Hfh, Hfc. rewrite Hpre in *. simpl in *.
      rewrite !length_repeat_interleave in *. split.
      + destruct Hfh as [Hfh|[Hfh _]]; [lia|].
        apply Nat.eq_mul_1 in Hfh. lia.
      + destruct Hfc as [Hfc|[Hfc _]]; [lia|].
        apply Nat.eq_mul_1 in Hfc. lia.
    - rewrite Hpre. now apply Hcar. }
  unfold rows_ok. rewrite Efed, Ecell. simpl. intuition lia.
Qed.

(** Every iteration works on [batch_size] rows, and the state that leaves
    the last one has [batch_size // multi_sample] rows. *)
Lemma loop_rows (es : list step_log) :
  forall (i : nat) (s s' : state),
    Forall (iteration lstm_cell self ms timesteps) es ->
    chained s es s' ->
    (forall k e, nth_error es k = Some e ->
                 log_i e = i + k /\ length (log_x e) = bs /\
                 length (log_initial e) = bs) ->
    i + length es = timesteps ->
    (expand_cond self ms i = false ->
     length (fst s) = bs /\ length (snd s) = bs) ->
    Forall (rows_ok bs) es /\
    (es <> [] ->
     length (fst s') = bs / ms /\ length (snd s') = bs / ms).
Proof.
  induction es as [|e es IH]; intros i s s' Hall Hch Hk Hlen Hs.
  - split; [constructor | congruence].
  - inversion Hall as [|e0 es0 Hit Hall']; subst e0 es0.
    destruct Hch as [Hcar Hch].
    destruct (Hk 0 e eq_refl) as (Hi & Hx & Hini).
    rewrite Nat.add_0_r in Hi.
    assert (Hrows : rows_ok bs e).
    { apply iteration_rows; auto. intros Hex. rewrite Hcar.
      apply Hs. rewrite <- Hi. now rewrite <- (it_expanded Hit). }
    pose proof Hrows as (_ & _ & _ & _ & Hoh & Hoc).
    pose proof (it_reduced Hit) as Hred. rewrite Hi in Hred.
    pose proof (it_next Hit) as Hnext.
    destruct es as [|e1 es]; simpl in Hlen.
    + (* the last iteration *)
      split; [now constructor|]. intros _. simpl in Hch. subst s'.
      assert (Hlast : i = timesteps - 1) by lia.
      unfold reduce_cond in Hred.
      rewrite Hlast, Nat.eqb_refl, andb_true_r in Hred.
      destruct (log_reduced e).
      * destruct Hnext as [Hh Hc].
        apply length_view_mean in Hh, Hc. destruct Hh as [-> _], Hc as [-> _].
        now rewrite Hoh, Hoc.
      * rewrite Hnext, Hoh, Hoc. symmetry in Hred.
        apply Nat.ltb_ge in Hred.
        assert (ms = 1) by lia. subst ms. now rewrite Nat.div_1_r.
    + (* an iteration with a successor *)
      destruct (IH (S i) (log_next e) s') as [IHrows IHlast]; auto.
      * intros k e' He'. destruct (Hk (S k) e' He') as (Hi' & Hx' & Hini').
        split; [lia | auto].
      * simpl in *. lia.
      * intros Hex. simpl in Hlen.
        assert (Hnr : log_reduced e = false).
        { rewrite Hred. unfold reduce_cond. unfold expand_cond in Hex.
          simpl in Hex. destruct (1 <? ms); [simpl in *|reflexivity].
          rewrite Hex, orb_false_r. apply Nat.eqb_neq. lia. }
        rewrite Hnr in Hnext. now rewrite Hnext.
      * split; [now constructor|]. intros _. apply IHlast. discriminate.
Qed.

End Rows.

Lemma view_first_Ok (timesteps b u : nat) (m m0 : matrix) :
  view_first timesteps b u m = Ok m0 ->
  timesteps <> 0 /\ numel m = timesteps * b * u /\
  m0 = view_rows b u (concat m).
Proof.
  unfold view_first.
  destruct (Nat.eqb_spec (numel m) (timesteps * b * u)) as [Hn|];
    [|discriminate].
  destruct (Nat.eqb_spec timesteps 0) as [|Ht]; [discriminate|].
  intros [= <-]. auto.
Qed.

Section RunRows.

Variable lstm_cell : matrix -> state -> result state.
Hypothesis Hcell : cell_contract lstm_cell.

Variable self : LSTM.
Variables x hx cx : matrix.
Variable initials : list Qc.
Variable timesteps : nat.
Variable r : run.

Hypothesis Hrun :
  forward_body lstm_cell self x hx cx initials timesteps = Ok r.

(** In a run that returns, every iteration works on [batch_size] rows,
    and the final state has [batch_size // multi_sample] rows. *)
Lemma forward_rows :
  Forall (rows_ok (run_batch_size r)) (run_log r) /\
  length (fst (run_state r)) = run_batch_size r / run_multi_sample r /\
  length (snd (run_state r)) = run_batch_size r / run_multi_sample r.
Proof.
  pose proof Hrun as Hlog. apply forward_body_log in Hlog.
  destruct Hlog
    as (Hlen & Ht & Hms & Hall & (hx0 & cx0 & Ehx & Ecx & Hch) & _ & Hk).
  destruct (@loop_rows lstm_cell Hcell self (run_multi_sample r) timesteps
              (run_batch_size r) Hms (run_log r) 0 (hx0, cx0) (run_state r))
    as [Hrows Hlast]; auto.
  - intros k e He. destruct (Hk k e He) as (Hi & Hx & Hini & _). auto.
  - unfold expand_cond. rewrite Nat.eqb_refl, andb_true_r. intros Hle.
    apply Nat.ltb_ge in Hle.
    assert (E1 : run_multi_sample r = 1) by lia.
    apply view_first_Ok in Ehx, Ecx.
    destruct Ehx as (_ & _ & ->), Ecx as (_ & _ & ->). simpl.
    now rewrite !length_view_rows, E1, Nat.div_1_r.
  - split; [exact Hrows|]. apply Hlast.
    destruct (run_log r); [simpl in Hlen; congruence | discriminate].
Qed.

End RunRows.

(** ** Episode resets *)


(** ** Multi-sample reconciliation *)

Lemma chained_next (es : list step_log) :
  forall (s s' : state) (i : nat) (e e' : step_log),
    chained s es s' ->
    nth_error es i = Some e -> nth_error es (S i) = Some e' ->
    log_carried e' = log_next e.
Proof.
  induction es as [|e0 es IH]; intros s s' i e e' Hch He He'.
  - now rewrite nth_error_nil in He.
  - destruct Hch as [_ Hch]. destruct i as [|i]; simpl in He, He'.
    + injection He as <-. destruct es as [|e1 es]; [discriminate|].
      simpl in He'. injection He' as <-. now destruct Hch.
    + eapply IH; eassumption.
Qed.

Lemma chained_first (es : list step_log) (s s' : state) (e : step_log) :
  chained s es s' -> nth_error es 0 = Some e -> log_carried e = s.
Proof.
  destruct es as [|e0 es]; simpl; [discriminate|].
  now intros [H _] [= <-].
Qed.

Lemma chained_last (es : list step_log) :
  forall (s s' : state) (e : step_log),
    chained s es s' ->
    nth_error es (length es - 1) = Some e -> s' = log_next e.
Proof.
  induction es as [|e0 es IH]; intros s s' e Hch He.
  - now rewrite nth_error_nil in He.
  - destruct Hch as [_ Hch]. destruct es as [|e1 es].
    + simpl in *. injection He as <-. exact Hch.
    + eapply IH; [eassumption|]. simpl in *. rewrite Nat.sub_0_r. exact He.
Qed.

(** Row [j] of the reduction is the mean of rows [j*k .. j*k+k-1]. *)
Lemma view_mean_rows (w k : nat) (m m' : matrix) :
  view_mean w k m = Ok m' ->
  length m' = length m / k /\
  forall j, j < length m / k ->
            nth_error m' j = Some (mean_rows w (firstn k (skipn (j * k) m))).
Proof.
  intros H. split; [now apply length_view_mean in H|].
  unfold view_mean in H. destruct (k * w =? 0); [discriminate|].
  destruct (length m mod k =? 0); [|discriminate].
  injection H as <-. intros j Hj.
  now rewrite nth_error_map, nth_error_view_rows.
Qed.

Lemma expand_cond_iff (self : LSTM) (ms i : nat) :
  expand_cond self ms i = true <->
  1 < ms /\ (i = 0 \/ multi_sample_merge_mode self = inner).
Proof.
  unfold expand_cond.
  rewrite andb_true_iff, orb_true_iff, Nat.ltb_lt, Nat.eqb_eq.
  destruct (multi_sample_merge_mode self); simpl; intuition congruence.
Qed.

Lemma reduce_cond_iff (self : LSTM) (ms timesteps i : nat) :
  reduce_cond self ms timesteps i = true <->
  1 < ms /\ (i = timesteps - 1 \/ multi_sample_merge_mode self = inner).
Proof.
  unfold reduce_cond.
  rewrite andb_true_iff, orb_true_iff, Nat.ltb_lt, Nat.eqb_eq.
  destruct (multi_sample_merge_mode self); simpl; intuition congruence.
Qed.

(** C2.  In a run of [forward] that returns, with [multi_sample] the
    factor the run detected: the loop makes one iteration per timestep, each
    iteration starts from the state the one before left, and at iteration
    [i]
    - the carried state is expanded if and only if [multi_sample > 1] and
      ([i = 0] or the merge mode is inner); the expansion is the interleaved
      repeat of hx and of cx, in which row [j] is row [j // multi_sample] of
      the carried state (the copies of a row are contiguous); otherwise the
      state enters the reset as it was carried;
    - the state returned by the cell is reduced if and only if
      [multi_sample > 1] and ([i = timesteps - 1] or the merge mode is
      inner); the reduction has one row per group of [multi_sample]
      consecutive rows, the mean of the group; otherwise the state of the
      cell is carried on as it is;
    - with [multi_sample = 1] there is neither expansion nor reduction. *)
Theorem reconciliation_timing
        (lstm_cell : matrix -> state -> result state) (self : LSTM)
        (x hx cx : matrix) (initials : list Qc) (timesteps : nat) (r : run) :
  forward_body lstm_cell self x hx cx initials timesteps = Ok r ->
  length (run_log r) = timesteps /\
  (forall i e e', nth_error (run_log r) i = Some e ->
                  nth_error (run_log r) (S i) = Some e' ->
                  log_carried e' = log_next e) /\
  forall i e,
    nth_error (run_log r) i = Some e ->
    (log_expanded e = true <->
     1 < run_multi_sample r /\
     (i = 0 \/ multi_sample_merge_mode self = inner)) /\
    (log_expanded e = true ->
     log_pre e = (repeat_interleave (fst (log_carried e)) (run_multi_sample r),
                  repeat_interleave (snd (log_carried e)) (run_multi_sample r))
     /\
     forall j,
       nth_error (fst (log_pre e)) j
       = nth_error (fst (log_carried e)) (j / run_multi_sample r) /\
       nth_error (snd (log_pre e)) j
       = nth_error (snd (log_carried e)) (j / run_multi_sample r)) /\
    (log_expanded e = false -> log_pre e = log_carried e) /\
    (log_reduced e = true <->
     1 < run_multi_sample r /\
     (i = timesteps - 1 \/ multi_sample_merge_mode self = inner)) /\
    (log_reduced e = true ->
     let k := run_multi_sample r in
     let w := num_units self in
     length (fst (log_next e)) = length (fst (log_cell e)) / k /\
     length (snd (log_next e)) = length (snd (log_cell e)) / k /\
     forall j,
       (j < length (fst (log_cell e)) / k ->
        nth_error (fst (log_next e)) j
        = Some (mean_rows w (firstn k (skipn (j * k) (fst (log_cell e)))))) /\
       (j < length (snd (log_cell e)) / k ->
        nth_error (snd (log_next e)) j
        = Some (mean_rows w (firstn k (skipn (j * k) (snd (log_cell e))))))) /\
    (log_reduced e = false -> log_next e = log_cell e) /\
    (run_multi_sample r = 1 ->
     log_expanded e = false /\ log_reduced e = false).
Proof.
  intros Hrun.
  pose proof Hrun as Hlog. apply forward_body_log in Hlog.
  destruct Hlog
    as (Hlen & Ht & Hms & Hall & (hx0 & cx0 & _ & _ & Hch) & _ & Hk).
  split; [exact Hlen|]. split.
  { intros i e e' He He'. eapply chained_next; eassumption. }
  intros i e He.
  destruct (Hk i e He) as (Hi & _).
  pose proof (proj1 (Forall_forall _ _) Hall e (nth_error_In _ _ He))
    as [Hex Hpre Hfh Hfc Hc Hred Hnext].
  rewrite Hi in Hex, Hred.
  split; [rewrite Hex; apply expand_cond_iff|].
  split.
  { intros E. rewrite E in Hpre. split; [exact Hpre|]. intros j.
    assert (0 < run_multi_sample r) by lia.
    rewrite Hpre; simpl. now rewrite !nth_error_repeat_interleave. }
  split; [intros E; now rewrite E in Hpre|].
  split; [rewrite Hred; apply reduce_cond_iff|].
  split.
  { intros E. rewrite E in Hnext. destruct Hnext as [Hh Hcx].
    apply view_mean_rows in Hh, Hcx. simpl.
    destruct Hh as [Hlh Hh], Hcx as [Hlc Hcx].
    split; [exact Hlh|]. split; [exact Hlc|]. intros j. split; auto. }
  split; [intros E; now rewrite E in Hnext|].
  intros E1. split.
  - rewrite Hex. unfold expand_cond. now rewrite E1.
  - rewrite Hred. unfold reduce_cond. now rewrite E1.
Qed.

(** ** Shapes of the output and of the final state *)

Lemma torch_cat_Ok (out : list matrix) (o : matrix) :
  torch_cat out = Ok o -> o = concat out.
Proof.
  unfold torch_cat. destruct (concat out) as [|r0 rest].
  - destruct out; [discriminate | now intros [= <-]].
  - destruct (has_width (length r0) rest); [now intros [= <-] | discriminate].
Qed.

Lemma length_concat_const (A : Type) (l : list (list A)) (n : nat) :
  Forall (fun g => length g = n) l -> length (concat l) = length l * n.
Proof.
  induction 1 as [|g l Hg _ IH]; simpl; [reflexivity|].
  now rewrite length_app, IH, Hg.
Qed.

Lemma forward_Ok (lstm_cell : matrix -> state -> result state) (self : LSTM)
      (x hx cx : matrix) (initials : list Qc) (timesteps : nat)
      (out : matrix) (self' : LSTM) :
  forward lstm_cell self x hx cx initials timesteps = (Ok out, self') ->
  exists r,
    forward_body lstm_cell self x hx cx initials timesteps = Ok r /\
    out = run_out r /\
    self' = set_last_state self
              (Some (Tensor (fst (run_state r)), Tensor (snd (run_state r)))).
Proof.
  unfold forward.
  destruct (forward_body lstm_cell self x hx cx initials timesteps) as [r|e];
    [|discriminate].
  intros [= <- <-]. now exists r.
Qed.

Section Shapes.

Variable lstm_cell : matrix -> state -> result state.
Hypothesis Hcell : cell_contract lstm_cell.

Variable self : LSTM.
Variables x hx cx : matrix.
Variable initials : list Qc.
Variable timesteps : nat.
Variable r : run.

Hypothesis Hrun :
  forward_body lstm_cell self x hx cx initials timesteps = Ok r.

(** The locals of the run in terms of the arguments. *)
Lemma run_locals :
  exists x',
    flatten (inp_size self) x = Ok x' /\
    run_multi_sample r = length x' / length hx /\
    run_batch_size r = length x' / timesteps /\
    length x' = timesteps * run_batch_size r /\
    timesteps <> 0 /\ run_multi_sample r <> 0.
Proof.
  pose proof Hrun as H. apply forward_body_Ok in H.
  destruct H as (x' & hx0 & cx0 & xs & inits & out & Ex & _ & _ & _ & _ &
                 Hms & Ht & Hbs & Hms0 & _ & _ & Exs & _).
  exists x'. repeat split; auto.
  pose proof Ex as Hx. apply flatten_Ok in Hx. destruct Hx as (Hinp & Hw & _).
  unfold view_timesteps in Exs. rewrite (length_concat_width Hw) in Exs.
  destruct (Nat.eqb_spec (length x' * inp_size self)
              (timesteps * run_batch_size r * inp_size self)) as [Hx'|];
    [|discriminate].
  now apply Nat.mul_cancel_r in Hx'.
Qed.

(** The oversampled batch is [multi_sample] copies of the sequences. *)
Lemma batch_size_multiple :
  run_batch_size r = run_batch_size r / run_multi_sample r * run_multi_sample r.
Proof.
  pose proof Hrun as Hlog. apply forward_body_log in Hlog.
  destruct Hlog as (Hlen & Ht & Hms & Hall & (hx0 & cx0 & _ & _ & Hch) & _ & Hk).
  pose proof Hrun as Hrows. apply forward_rows in Hrows; [|exact Hcell].
  destruct Hrows as (Hrows & _).
  destruct (Nat.ltb_spec 1 (run_multi_sample r)) as [Hgt|Hle].
  - destruct (nth_error (run_log r) (timesteps - 1)) as [e|] eqn:He.
    2:{ apply nth_error_None in He. lia. }
    destruct (Hk _ _ He) as (Hi & _).
    pose proof (proj1 (Forall_forall _ _) Hall e (nth_error_In _ _ He))
      as Hit.
    pose proof (proj1 (Forall_forall _ _) Hrows e (nth_error_In _ _ He))
      as (_ & _ & _ & _ & Hoh & _).
    pose proof (it_reduced Hit) as Hred. pose proof (it_next Hit) as Hnext.
    assert (Er : reduce_cond self (run_multi_sample r) timesteps (log_i e)
                 = true).
    { apply reduce_cond_iff. split; [exact Hgt | left; exact Hi]. }
    rewrite Er in Hred. rewrite Hred in Hnext. destruct Hnext as [Hh _].
    apply length_view_mean in Hh. destruct Hh as [_ Hmod].
    rewrite Hoh in Hmod.
    pose proof (Nat.div_mod_eq (run_batch_size r) (run_multi_sample r)).
    lia.
  - replace (run_multi_sample r) with 1 by lia.
    now rewrite Nat.div_1_r, Nat.mul_1_r.
Qed.

End Shapes.

Arguments run_locals [lstm_cell self x hx cx initials timesteps r] Hrun.
Arguments batch_size_multiple [lstm_cell] Hcell
  [self x hx cx initials timesteps r] Hrun.

(** C3, as the code has it.  In a run of [forward] that returns, the output
    is the concatenation, in timestep order, of the hx returned by the cell
    at each timestep; each of them is appended before any reduction and has
    [batch_size * multi_sample] rows, the one of the last timestep too, in
    both merge modes.  So the output has
    [timesteps * batch_size * multi_sample] rows, the row count of [x], under
    inner and under outer; only the carried state is reduced. *)
Theorem output_shape
        (lstm_cell : matrix -> state -> result state) (self : LSTM)
        (x hx cx : matrix) (initials : list Qc) (timesteps : nat) (r : run) :
  cell_contract lstm_cell ->
  forward_body lstm_cell self x hx cx initials timesteps = Ok r ->
  let sequences := run_batch_size r / run_multi_sample r in
  run_out r = concat (map (fun e => fst (log_cell e)) (run_log r)) /\
  length (run_log r) = timesteps /\
  (forall i e, nth_error (run_log r) i = Some e ->
               length (fst (log_cell e)) = sequences * run_multi_sample r) /\
  length (run_out r) = timesteps * sequences * run_multi_sample r /\
  exists x', flatten (inp_size self) x = Ok x' /\
             length (run_out r) = length x'.
Proof.
  intros Hcell Hrun sequences.
  pose proof Hrun as Hlog. apply forward_body_log in Hlog.
  destruct Hlog as (Hlen & _ & _ & _ & _ & (out & -> & Hcat) & _).
  pose proof Hrun as Hrows. apply forward_rows in Hrows; [|exact Hcell].
  destruct Hrows as (Hrows & _).
  pose proof (batch_size_multiple Hcell Hrun) as Hbs. fold sequences in Hbs.
  apply torch_cat_Ok in Hcat.
  assert (Hout : length (run_out r) = timesteps * run_batch_size r).
  { rewrite Hcat.
    rewrite (@length_concat_const _ _ (run_batch_size r)).
    - now rewrite length_map, Hlen.
    - apply Forall_map. revert Hrows. apply Forall_impl.
      intros e (_ & _ & _ & _ & Hoh & _). exact Hoh. }
  split; [exact Hcat|]. split; [exact Hlen|]. split.
  { intros i e He.
    pose proof (proj1 (Forall_forall _ _) Hrows e (nth_error_In _ _ He))
      as (_ & _ & _ & _ & Hoh & _).
    now rewrite Hoh. }
  split; [rewrite Hout, <- Nat.mul_assoc, <- Hbs; reflexivity|].
  destruct (run_locals Hrun) as (x' & Ex & _ & _ & Hx' & _).
  exists x'. split; [exact Ex | now rewrite Hout].
Qed.

(** C6.  After a call of [forward] that returns, [last_state] holds the pair
    of tensors the loop ended with, and each has one row per sequence: the
    row count of [x] divided by [timesteps * multi_sample], in both merge
    modes.  With [multi_sample > 1] this is fewer rows than the oversampled
    batch has. *)
Theorem final_state_reduced
        (lstm_cell : matrix -> state -> result state) (self : LSTM)
        (x hx cx : matrix) (initials : list Qc) (timesteps : nat)
        (out : matrix) (self' : LSTM) :
  cell_contract lstm_cell ->
  forward lstm_cell self x hx cx initials timesteps = (Ok out, self') ->
  exists x' h c,
    flatten (inp_size self) x = Ok x' /\
    last_state self' = Some (Tensor h, Tensor c) /\
    let multi_sample := length x' / length hx in
    length h = length x' / (timesteps * multi_sample) /\
    length c = length x' / (timesteps * multi_sample) /\
    (1 < multi_sample ->
     length h < length x' / timesteps /\ length c < length x' / timesteps).
Proof.
  intros Hcell Hfw. apply forward_Ok in Hfw.
  destruct Hfw as (r & Hrun & _ & ->).
  pose proof Hrun as Hrows. apply forward_rows in Hrows; [|exact Hcell].
  destruct Hrows as (_ & Hh & Hc).
  pose proof (batch_size_multiple Hcell Hrun) as Hmul.
  destruct (run_locals Hrun) as (x' & Ex & Hms & Hbs & Hx' & Ht & Hms0).
  exists x', (fst (run_state r)), (snd (run_state r)).
  split; [exact Ex|]. split; [reflexivity|]. simpl.
  rewrite <- Hms, <- Nat.Div0.div_div, <- Hbs.
  split; [exact Hh|]. split; [exact Hc|].
  intros Hgt. rewrite Hh, Hc.
  assert (0 < run_batch_size r).
  { destruct (run_batch_size r) as [|n] eqn:E; [|lia].
    pose proof Hrun as H. apply forward_body_Ok in H.
    destruct H as (x1 & _ & _ & _ & _ & _ & Ex1 & _ & _ & Hhx & Hmod & Hms1 & _).
    rewrite Ex in Ex1. injection Ex1 as <-.
    rewrite Nat.mul_0_r in Hx'. rewrite Hx' in Hms1.
    rewrite Nat.Div0.div_0_l in Hms1. congruence. }
  split; apply Nat.div_lt; lia.
Qed.

(** ** Expand and reduce *)







(** ** The state cache *)

Lemma astype_all_true (initials : list bool) :
  ~ In false initials ->
  astype_float32 initials = repeat 1%Qc (length initials).
Proof.
  induction initials as [|[|] l IH]; simpl; intros H;
    [reflexivity | rewrite IH; tauto | tauto].
Qed.

Lemma astype_all_false (initials : list bool) :
  Forall (fun b => b = false) initials ->
  astype_float32 initials = repeat 0%Qc (length initials).
Proof.
  induction 1 as [|b l -> _ IH]; simpl; [reflexivity | now rewrite IH].
Qed.

Lemma np_all_astype (initials : list bool) :
  np_all (astype_float32 initials) = true <-> ~ In false initials.
Proof.
  unfold np_all. induction initials as [|[|] l IH]; simpl.
  - tauto.
  - rewrite IH. intuition congruence.
  - intuition congruence.
Qed.

Lemma one_minus_repeat_1 (n : nat) :
  one_minus (repeat 1%Qc n) = repeat 0%Qc n.
Proof.
  unfold one_minus. induction n as [|n IH]; simpl; [reflexivity|].
  now rewrite IH, one_minus_one.
Qed.

Lemma one_minus_repeat_0 (n : nat) :
  one_minus (repeat 0%Qc n) = repeat 1%Qc n.
Proof.
  unfold one_minus. induction n as [|n IH]; simpl; [reflexivity|].
  now rewrite IH, one_minus_zero.
Qed.

(** A mask of ones keeps the state. *)
Lemma mul_mask_ones (h : matrix) :
  mul_mask h (repeat 1%Qc (length h)) = Ok h.
Proof.
  unfold mul_mask. rewrite repeat_length, Nat.eqb_refl. f_equal.
  induction h as [|r h IH]; [reflexivity|].
  cbn [length repeat combine map fst snd]. rewrite scale_one. f_equal.
  exact IH.
Qed.

(** A mask of zeros on the zero state gives the zero state. *)
Lemma mul_mask_zeros (n w : nat) :
  mul_mask (zeros n w) (repeat 0%Qc n) = Ok (zeros n w).
Proof.
  unfold mul_mask, zeros. rewrite !repeat_length, Nat.eqb_refl. f_equal.
  induction n as [|n IH]; [reflexivity|].
  cbn [repeat combine map fst snd]. f_equal; [|exact IH].
  clear IH. unfold scale. induction w as [|w IHw]; [reflexivity|].
  cbn [repeat map]. rewrite Qcmult_0_l. f_equal. exact IHw.
Qed.

Lemma length_astype (initials : list bool) :
  length (astype_float32 initials) = length initials.
Proof. apply length_map. Qed.

(** C9.  On a module whose cache was never set, [get_state] raises the
    assertion error of line 147 if and only if some entry of [initials] is
    false, and then the cache stays unset.  When every entry is true
    [get_state] returns: hx and cx are the zero matrix of
    [len(initials)] rows and [num_units] columns, the initials come back as
    ones, and the cache holds the same two zero matrices. *)
Theorem first_get_state (self : LSTM) (initials : list bool) :
  last_state self = None ->
  let n := length initials in
  let z := zeros n (num_units self) in
  (fst (get_state self initials) = Raise AssertionError <->
   In false initials) /\
  ((exists e, fst (get_state self initials) = Raise e) <->
   In false initials) /\
  (In false initials -> snd (get_state self initials) = self) /\
  (~ In false initials ->
   get_state self initials
   = (Ok {| sd_hx := z; sd_cx := z; sd_initials := repeat 1%Qc n |},
      set_last_state self (Some (NDArray z, NDArray z)))).
Proof.
  intros Hnone n z.
  assert (Hbad : In false initials ->
                 get_state self initials = (Raise AssertionError, self)).
  { intros Hin. unfold get_state. rewrite Hnone.
    destruct (np_all (astype_float32 initials)) eqn:E; [|reflexivity].
    apply np_all_astype in E. contradiction. }
  assert (Hgood : ~ In false initials ->
                  get_state self initials
                  = (Ok {| sd_hx := z; sd_cx := z;
                           sd_initials := repeat 1%Qc n |},
                     set_last_state self (Some (NDArray z, NDArray z)))).
  { intros Hall. unfold get_state. rewrite Hnone.
    rewrite (proj2 (np_all_astype initials) Hall). simpl.
    rewrite length_astype, (astype_all_true _ Hall), one_minus_repeat_1.
    fold n. fold z.
    assert (Hz : mul_mask z (repeat 0%Qc n) = Ok z) by apply mul_mask_zeros.
    assert (Hl : length z = n) by apply repeat_length.
    rewrite Hz. simpl. rewrite Hl, Nat.eqb_refl. reflexivity. }
  assert (Hdec : In false initials \/ ~ In false initials).
  { destruct (in_dec Bool.bool_dec false initials); auto. }
  split; [|split; [|split]].
  - split; [|intros H; now rewrite Hbad].
    intros H. destruct Hdec as [Hin|Hall]; [exact Hin|].
    rewrite (Hgood Hall) in H. discriminate.
  - split; [|intros H; exists AssertionError; now rewrite Hbad].
    intros [e H]. destruct Hdec as [Hin|Hall]; [exact Hin|].
    rewrite (Hgood Hall) in H. discriminate.
  - intros H. now rewrite Hbad.
  - exact Hgood.
Qed.

(** What a call of [get_state] that returns has done. *)
Lemma get_state_Ok (self self' : LSTM) (initials : list bool)
      (d : state_dict) :
  get_state self initials = (Ok d, self') ->
  exists h c,
    match last_state self with
    | None => h = zeros (length initials) (num_units self) /\
              c = zeros (length initials) (num_units self) /\
              ~ In false initials
    | Some (a, b) => a = Tensor h /\ b = Tensor c
    end /\
    mul_mask h (one_minus (astype_float32 initials)) = Ok (sd_hx d) /\
    mul_mask c (one_minus (astype_float32 initials)) = Ok (sd_cx d) /\
    length (sd_hx d) = length initials /\
    length (sd_cx d) = length initials /\
    sd_initials d = astype_float32 initials /\
    self' = set_last_state self (Some (NDArray (sd_hx d), NDArray (sd_cx d))).
Proof.
  unfold get_state. rewrite length_astype.
  destruct (last_state self) as [[a b]|] eqn:Els.
  - destruct a as [h|h]; simpl; [|intros [= ]; discriminate].
    destruct b as [c|c]; simpl; [|intros [= ]; discriminate].
    destruct (mul_mask h (one_minus (astype_float32 initials)))
      as [hm|] eqn:Eh; simpl; [|intros [= ]; discriminate].
    destruct (mul_mask c (one_minus (astype_float32 initials)))
      as [cm|] eqn:Ec; simpl; [|intros [= ]; discriminate].
    destruct (Nat.eqb_spec (length hm) (length initials)) as [Hh|]; simpl;
      [|intros [= ]; discriminate].
    destruct (Nat.eqb_spec (length cm) (length initials)) as [Hc|]; simpl;
      [|intros [= ]; discriminate].
    intros [= <- <-]. exists h, c. simpl.
    destruct self; simpl in *. repeat split; auto.
  - destruct (np_all (astype_float32 initials)) eqn:Eall; simpl;
      [|intros [= ]; discriminate].
    apply np_all_astype in Eall.
    set (z := zeros (length initials) (num_units self)).
    destruct (mul_mask z (one_minus (astype_float32 initials)))
      as [hm|] eqn:Eh; simpl; [|intros [= ]; discriminate].
    destruct (Nat.eqb_spec (length hm) (length initials)) as [Hh|]; simpl;
      [|intros [= ]; discriminate].
    intros [= <- <-]. exists z, z. simpl. repeat split; auto.
Qed.

Lemma mul_mask_scaled (h : matrix) (mask : list Qc) (f : matrix) :
  mul_mask h mask = Ok f -> length f = length mask ->
  forall j s, nth_error mask j = Some s ->
              exists r, nth_error f j = Some (scale r s).
Proof.
  unfold mul_mask.
  destruct (Nat.eqb_spec (length h) (length mask)) as [E|NE].
  { intros Hf _ j s Hs.
    destruct (nth_error h j) as [r|] eqn:Hr.
    - exists r. revert Hr Hs. apply mul_mask_rows; [exact E|].
      unfold mul_mask. now rewrite E, Nat.eqb_refl.
    - apply nth_error_None in Hr.
      assert (j < length mask) by (apply nth_error_Some; congruence). lia. }
  destruct (Nat.eqb_spec (length h) 1) as [E1|NE1].
  { intros [= <-] _ j s Hs. exists (hd [] h).
    now rewrite nth_error_map, Hs. }
  destruct (Nat.eqb_spec (length mask) 1) as [E2|]; [|discriminate].
  intros [= <-]. rewrite length_map. intros E. congruence.
Qed.

(** The first two parts of C10: a call of [get_state] that returns gives hx
    and cx of [len(initials)] rows each, the cache holds the returned
    arrays, and in them every row flagged initial is zero. *)
Lemma get_state_returns (self self' : LSTM) (initials : list bool)
      (d : state_dict) :
  get_state self initials = (Ok d, self') ->
  length (sd_hx d) = length initials /\
  length (sd_cx d) = length initials /\
  last_state self' = Some (NDArray (sd_hx d), NDArray (sd_cx d)) /\
  forall j, nth_error initials j = Some true ->
            exists hrow crow,
              nth_error (sd_hx d) j = Some hrow /\
              nth_error (sd_cx d) j = Some crow /\
              Forall (fun v => v = 0%Qc) hrow /\
              Forall (fun v => v = 0%Qc) crow.
Proof.
  intros H. apply get_state_Ok in H.
  destruct H as (h & c & _ & Hh & Hc & Hlh & Hlc & _ & ->).
  split; [exact Hlh|]. split; [exact Hlc|]. split; [reflexivity|].
  intros j Hj.
  assert (Hm : nth_error (one_minus (astype_float32 initials)) j
               = Some 0%Qc).
  { rewrite nth_error_one_minus. unfold astype_float32.
    rewrite nth_error_map, Hj. simpl. now rewrite one_minus_one. }
  destruct (mul_mask_scaled _ _ Hh) with (j := j) (s := 0%Qc) as [hr Hhr];
    [now rewrite length_one_minus, length_astype | exact Hm |].
  destruct (mul_mask_scaled _ _ Hc) with (j := j) (s := 0%Qc) as [cr Hcr];
    [now rewrite length_one_minus, length_astype | exact Hm |].
  exists (scale hr 0%Qc), (scale cr 0%Qc).
  repeat split; auto using scale_zero.
Qed.

(** After a call of [get_state] that returned, the cache holds numpy arrays
    (line 153), and the next call of [get_state], whatever its [initials],
    stops at line 151 with an attribute error.  The cache is left as it
    was. *)
Lemma get_state_after_get_state (self self1 : LSTM) (initials1 : list bool)
      (d : state_dict) (initials2 : list bool) :
  get_state self initials1 = (Ok d, self1) ->
  get_state self1 initials2 = (Raise AttributeError, self1).
Proof.
  intros H. apply get_state_Ok in H.
  destruct H as (h & c & _ & _ & _ & _ & _ & _ & ->).
  unfold get_state. simpl. reflexivity.
Qed.

(** With no flag set, [get_state] returns the cached tensors as they are. *)
Lemma get_state_keeps (self : LSTM) (h c : matrix) (initials : list bool) :
  last_state self = Some (Tensor h, Tensor c) ->
  length h = length initials -> length c = length initials ->
  Forall (fun b => b = false) initials ->
  get_state self initials
  = (Ok {| sd_hx := h; sd_cx := c;
           sd_initials := repeat 0%Qc (length initials) |},
     set_last_state self (Some (NDArray h, NDArray c))).
Proof.
  intros Hls Hh Hc Hall. unfold get_state. rewrite Hls. simpl.
  rewrite length_astype, (astype_all_false Hall), one_minus_repeat_0.
  rewrite <- Hh at 1. rewrite mul_mask_ones. simpl.
  rewrite <- Hc at 1. rewrite mul_mask_ones. simpl.
  rewrite Hh, Hc, Nat.eqb_refl. simpl.
  destruct self; reflexivity.
Qed.

(** C4.  Let [forward] return on one timestep and without oversampling
    (as many rows in [x] as in [hx]).  Then the loop made one call of the
    cell, the cache holds the pair (h, c) that this call returned, and a
    following [get_state] whose [initials] are all false, one per sequence,
    returns exactly this h and this c. *)
Theorem state_persistence
        (lstm_cell : matrix -> state -> result state) (self : LSTM)
        (x hx cx : matrix) (initials : list Qc)
        (out : matrix) (self' : LSTM) (x' : matrix) (initials' : list bool) :
  cell_contract lstm_cell ->
  forward lstm_cell self x hx cx initials 1 = (Ok out, self') ->
  flatten (inp_size self) x = Ok x' ->
  length x' / length hx = 1 ->
  length initials' = length x' ->
  Forall (fun b => b = false) initials' ->
  exists h c r e,
    forward_body lstm_cell self x hx cx initials 1 = Ok r /\
    run_log r = [e] /\ log_cell e = (h, c) /\ run_state r = (h, c) /\
    last_state self' = Some (Tensor h, Tensor c) /\
    fst (get_state self' initials')
    = Ok {| sd_hx := h; sd_cx := c;
            sd_initials := repeat 0%Qc (length initials') |}.
Proof.
  intros Hcell Hfw Hx' Hms Hlen Hall. apply forward_Ok in Hfw.
  destruct Hfw as (r & Hrun & _ & ->).
  destruct (run_locals Hrun) as (x1 & Ex & Hms1 & Hbs & _ & _ & _).
  rewrite Hx' in Ex. injection Ex as <-.
  rewrite Hms in Hms1. rewrite Nat.div_1_r in Hbs.
  pose proof Hrun as Hrows. apply forward_rows in Hrows; [|exact Hcell].
  destruct Hrows as (_ & Hh & Hc).
  rewrite Hms1, Hbs, Nat.div_1_r in Hh, Hc.
  pose proof Hrun as Hlog. apply forward_body_log in Hlog.
  destruct Hlog as (Hl & _ & _ & Hit & (hx0 & cx0 & _ & _ & Hch) & _ & _).
  destruct (run_log r) as [|e [|e1 es]] eqn:Elog; try discriminate.
  destruct Hch as [_ Hnext]. simpl in Hnext.
  inversion Hit as [|e0 es0 He _]; subst e0 es0.
  pose proof (it_reduced He) as Hred. pose proof (it_next He) as Hn.
  unfold reduce_cond in Hred. rewrite Hms1 in Hred. simpl in Hred.
  rewrite Hred in Hn.
  destruct (run_state r) as [h c] eqn:Est. simpl in Hh, Hc.
  exists h, c, r, e.
  split; [exact Hrun|]. split; [exact Elog|].
  split; [congruence|]. split; [exact Est|]. split; [reflexivity|].
  rewrite (@get_state_keeps _ h c); [reflexivity | reflexivity | | | exact Hall];
    congruence.
Qed.

(** ** Which inputs the run depends on *)

(** Steps over a bind whose first computation is the same on both sides. *)
Ltac step E :=
  match goal with
  | |- bind ?m _ = bind ?m _ => destruct m eqn:E; cbn [bind]; [|reflexivity]
  end.

Lemma has_width_map_length (w : nat) (m m' : matrix) :
  map (@length Qc) m = map (@length Qc) m' ->
  has_width w m = has_width w m'.
Proof.
  unfold has_width. revert m'; induction m as [|r m IH]; intros [|r' m'];
    simpl; try discriminate; [reflexivity|].
  intros [= -> Hm]. now rewrite (IH _ Hm).
Qed.

Lemma concat_width_0 (m : matrix) :
  Forall (fun r => length r = 0) m -> concat m = [].
Proof.
  induction 1 as [|r m Hr _ IH]; simpl; [reflexivity|].
  apply length_zero_iff_nil in Hr. now rewrite Hr, IH.
Qed.

(** The view of timestep 0 reads the first [len / timesteps] rows only. *)
Lemma view_first_eq (timesteps b u : nat) (m m' : matrix) :
  Forall (fun r => length r = u) m ->
  Forall (fun r => length r = u) m' ->
  length m = length m' ->
  firstn (length m / timesteps) m = firstn (length m / timesteps) m' ->
  view_first timesteps b u m = view_first timesteps b u m'.
Proof.
  intros Hm Hm' Hlen Hfirst. unfold view_first.
  rewrite (length_concat_width Hm), (length_concat_width Hm'), <- Hlen.
  destruct (Nat.eqb_spec (length m * u) (timesteps * b * u)) as [E|];
    [|reflexivity].
  destruct (Nat.eqb_spec timesteps 0) as [|Ht]; [reflexivity|]. f_equal.
  destruct (Nat.eq_dec u 0) as [->|Hu].
  - now rewrite (concat_width_0 Hm), (concat_width_0 Hm').
  - apply Nat.mul_cancel_r in E; [|exact Hu].
    assert (Hb : length m / timesteps = b).
    { rewrite E, Nat.mul_comm. now apply Nat.div_mul. }
    rewrite Hb in Hfirst.
    rewrite !view_rows_concat_firstn with (w := u); auto; nia.
Qed.

(** C5.  [forward] reads hx and cx through the view of timestep 0 only.
    Two calls that agree on [x], [initials] and [timesteps], whose hx (and
    cx) have the same shape and the same rows of timestep 0, the first
    [rows / timesteps] rows, give the same result: the same output or the
    same exception, and the same cache afterwards. *)
Theorem timestep0_dependence
        (lstm_cell : matrix -> state -> result state) (self : LSTM)
        (x hx cx hx' cx' : matrix) (initials : list Qc) (timesteps : nat) :
  map (@length Qc) hx = map (@length Qc) hx' ->
  map (@length Qc) cx = map (@length Qc) cx' ->
  firstn (length hx / timesteps) hx = firstn (length hx / timesteps) hx' ->
  firstn (length cx / timesteps) cx = firstn (length cx / timesteps) cx' ->
  forward lstm_cell self x hx cx initials timesteps
  = forward lstm_cell self x hx' cx' initials timesteps.
Proof.
  intros Hsh Hsc Hh Hc.
  assert (Hlh : length hx = length hx')
    by (rewrite <- (length_map (@length Qc) hx), Hsh; apply length_map).
  assert (Hlc : length cx = length cx')
    by (rewrite <- (length_map (@length Qc) cx), Hsc; apply length_map).
  unfold forward.
  replace (forward_body lstm_cell self x hx' cx' initials timesteps)
    with (forward_body lstm_cell self x hx cx initials timesteps);
    [reflexivity|].
  unfold forward_body.
  rewrite <- (has_width_map_length (num_units self) _ _ Hsh).
  rewrite <- (has_width_map_length (num_units self) _ _ Hsc).
  rewrite <- Hlh.
  step Ex. step Ehw. step Ecw.
  apply assert_Ok in Ehw, Ecw.
  pose proof Ehw as Ehw'. pose proof Ecw as Ecw'.
  rewrite (has_width_map_length _ _ _ Hsh) in Ehw'.
  rewrite (has_width_map_length _ _ _ Hsc) in Ecw'.
  apply has_width_Forall in Ehw, Ecw, Ehw', Ecw'.
  step Emod. step Ezero. step Ems. step Ebs. step Eb.
  match goal with
  | |- context [view_first ?t ?b ?u hx'] =>
      rewrite <- (view_first_eq t b Ehw Ehw' Hlh Hh)
  end.
  step Ehx.
  match goal with
  | |- context [view_first ?t ?b ?u cx'] =>
      rewrite <- (view_first_eq t b Ecw Ecw' Hlc Hc)
  end.
  reflexivity.
Qed.

(** ** The merge mode without oversampling *)

Lemma timestep_mode (lstm_cell : matrix -> state -> result state)
      (a b : LSTM) (ms timesteps i : nat) (x : matrix) (initial : list Qc)
      (s : state) :
  ms <= 1 ->
  timestep lstm_cell a ms timesteps i x initial s
  = timestep lstm_cell b ms timesteps i x initial s.
Proof.
  intros Hms. unfold timestep, expand_cond, reduce_cond.
  assert (E : (1 <? ms) = false) by now apply Nat.ltb_ge.
  rewrite E. reflexivity.
Qed.

Lemma timestep_loop_mode (lstm_cell : matrix -> state -> result state)
      (a b : LSTM) (ms timesteps : nat) (xs : list (matrix * list Qc)) :
  ms <= 1 ->
  forall (i : nat) (s : state),
    timestep_loop lstm_cell a ms timesteps i xs s
    = timestep_loop lstm_cell b ms timesteps i xs s.
Proof.
  intros Hms. induction xs as [|[x initial] xs IH]; intros i s; simpl;
    [reflexivity|].
  rewrite (timestep_mode lstm_cell a b timesteps i x initial s Hms).
  step E. destruct a0 as [[o s1] e]. now rewrite IH.
Qed.

(** C7.  Take a module built with merge mode outer and one built with merge
    mode inner, with the same input size and the same number of units, and
    arguments for which [forward] detects [multi_sample = 1].  The two
    calls of [forward] run the same iterations: they return the same output
    (or raise the same exception) and leave the same state in the cache. *)
Theorem mode_equivalence
        (lstm_cell : matrix -> state -> result state) (inp units : nat)
        (x hx cx : matrix) (initials : list Qc) (timesteps : nat)
        (x' : matrix) :
  flatten inp x = Ok x' ->
  length x' / length hx = 1 ->
  let o := init inp units outer in
  let i := init inp units inner in
  forward_body lstm_cell o x hx cx initials timesteps
  = forward_body lstm_cell i x hx cx initials timesteps /\
  fst (forward lstm_cell o x hx cx initials timesteps)
  = fst (forward lstm_cell i x hx cx initials timesteps) /\
  last_state (snd (forward lstm_cell o x hx cx initials timesteps))
  = last_state (snd (forward lstm_cell i x hx cx initials timesteps)).
Proof.
  intros Hx Hms o i.
  assert (Hbody : forward_body lstm_cell o x hx cx initials timesteps
                  = forward_body lstm_cell i x hx cx initials timesteps).
  { unfold forward_body. subst o i. cbn [init inp_size num_units].
    rewrite Hx. cbn [bind].
    step Ehw. step Ecw. step Emod. step Ezero. step Ems.
    apply floordiv_Ok in Ems. destruct Ems as [_ ->]. rewrite Hms.
    step Ebs. step Eb. step Ehx. step Ecx. step Exs. step En. step Elen.
    step Einits.
    erewrite timestep_loop_mode with (b := init inp units inner);
      [reflexivity | apply Nat.le_refl]. }
  split; [exact Hbody|]. unfold forward. rewrite Hbody.
  destruct (forward_body lstm_cell i x hx cx initials timesteps);
    split; reflexivity.
Qed.

(** * Concrete runs *)

Lemma scenario_inner_returns :
  scenario inner = Ok (the_run (scenario inner)).
Proof. vm_compute. reflexivity. Qed.

Lemma scenario_outer_returns :
  scenario outer = Ok (the_run (scenario outer)).
Proof. vm_compute. reflexivity. Qed.

Lemma episode_returns : episode = Ok (the_run episode).
Proof. vm_compute. reflexivity. Qed.

(** The scenario under inner: six output rows, one row of state. *)
Example scenario_inner_shapes :
  let r := the_run (scenario inner) in
  run_multi_sample r = 3 /\ run_batch_size r = 3 /\
  length (run_out r) = 6 /\
  length (fst (run_state r)) = 1 /\ length (snd (run_state r)) = 1 /\
  map log_expanded (run_log r) = [true; true] /\
  map log_reduced (run_log r) = [true; true].
Proof. vm_compute. repeat split. Qed.

(** The scenario under outer: expansion at the first timestep only,
    reduction at the last only. *)
Example scenario_outer_shapes :
  let r := the_run (scenario outer) in
  run_multi_sample r = 3 /\ run_batch_size r = 3 /\
  length (run_out r) = 6 /\
  length (fst (run_state r)) = 1 /\ length (snd (run_state r)) = 1 /\
  map log_expanded (run_log r) = [true; false] /\
  map log_reduced (run_log r) = [false; true].
Proof. vm_compute. repeat split. Qed.


(** The scenario under inner: two iterations. *)
Lemma reconciliation_timing_witness :
  scenario inner = Ok (the_run (scenario inner)) /\
  length (run_log (the_run (scenario inner))) = 2.
Proof.
  assert (Hrun : scenario inner = Ok (the_run (scenario inner)))
    by (vm_compute; reflexivity).
  split; [exact Hrun|].
  exact (proj1 (@reconciliation_timing _ _ _ _ _ _ _ _ Hrun)).
Defined.

(** C3 as stated fails under outer.  In the scenario under outer (three
    samples, two timesteps) the output has 6 rows, not the 3 + 1 of a
    mixed shape: its last three rows are the hx the cell returned at the
    last timestep, in expanded form, while the reduced state of that
    timestep has one row and goes to the cache only. *)
Lemma outer_output_not_mixed :
  exists r e,
    forward_body demo_cell (init 1 2 outer) scenario_x scenario_seed
                 scenario_seed scenario_initials 2 = Ok r /\
    run_multi_sample r = 3 /\
    nth_error (run_log r) 1 = Some e /\
    log_reduced e = true /\
    length (fst (log_next e)) = 1 /\
    run_state r = log_next e /\
    skipn 3 (run_out r) = fst (log_cell e) /\
    length (fst (log_cell e)) = 3 /\
    length (run_out r) = 6 /\
    length (run_out r) <> 3 + 1.
Proof.
  eexists. eexists.
  split; [vm_compute; reflexivity|].
  split; [reflexivity|].
  split; [vm_compute; reflexivity|].
  vm_compute. repeat split. discriminate.
Qed.

(** The scenario under outer: the output has the six rows of [x]. *)
Lemma output_shape_witness :
  cell_contract demo_cell /\
  scenario outer = Ok (the_run (scenario outer)) /\
  length (run_out (the_run (scenario outer))) = 2 * (3 / 3) * 3.
Proof.
  split; [exact demo_cell_contract|].
  assert (Hrun : scenario outer = Ok (the_run (scenario outer)))
    by (vm_compute; reflexivity).
  split; [exact Hrun|].
  exact (proj1 (proj2 (proj2 (proj2
           (@output_shape _ _ _ _ _ _ _ _ demo_cell_contract Hrun))))).
Defined.

(** One timestep on two sequences, then [get_state] without flags. *)
Lemma state_persistence_witness :
  exists out self' h c,
    cell_contract demo_cell /\
    forward demo_cell (init 1 2 inner) single_x single_hx single_cx
            single_initials 1 = (Ok out, self') /\
    flatten 1 single_x = Ok single_x /\
    length single_x / length single_hx = 1 /\
    last_state self' = Some (Tensor h, Tensor c) /\
    h = [[q 7; q 8]; [q 10; q 11]] /\
    fst (get_state self' [false; false])
    = Ok {| sd_hx := h; sd_cx := c; sd_initials := repeat 0%Qc 2 |}.
Proof.
  destruct (forward demo_cell (init 1 2 inner) single_x single_hx single_cx
                    single_initials 1) as [[out|ex] self'] eqn:Hfw;
    [|vm_compute in Hfw; discriminate].
  assert (Hx : flatten (inp_size (init 1 2 inner)) single_x = Ok single_x)
    by (vm_compute; reflexivity).
  assert (Hms : length single_x / length single_hx = 1) by reflexivity.
  assert (Hlen : length [false; false] = length single_x) by reflexivity.
  assert (Hall : Forall (fun b => b = false) [false; false])
    by (repeat constructor).
  destruct (@state_persistence _ _ _ _ _ _ _ _ _ [false; false]
              demo_cell_contract Hfw Hx Hms Hlen Hall)
    as (h & c & r & e & Hrun & _ & _ & Hst & Hls & Hget).
  exists out, self', h, c.
  split; [exact demo_cell_contract|]. split; [reflexivity|].
  split; [exact Hx|]. split; [exact Hms|]. split; [exact Hls|].
  split; [|exact Hget].
  vm_compute in Hrun. injection Hrun as <-.
  vm_compute in Hst. injection Hst as <- _. vm_compute. reflexivity.
Defined.

(** The episode run with other stored rows for the second timestep. *)
Lemma timestep0_dependence_witness :
  let hx' := [[q 5; q 6]; [q 7; q 8]; [q 9; q 9]; [q 3; q 4]] in
  let cx' := [[q 1; q 1]; [q 2; q 2]; [q 8; q 7]; [q 6; q 5]] in
  hx' <> episode_hx /\ cx' <> episode_cx /\
  forward demo_cell episode_self episode_x episode_hx episode_cx
          episode_initials 2
  = forward demo_cell episode_self episode_x hx' cx' episode_initials 2.
Proof.
  intros hx' cx'.
  split; [intros H; vm_compute in H; discriminate|].
  split; [intros H; vm_compute in H; discriminate|].
  apply timestep0_dependence; reflexivity.
Defined.

(** The scenario of the spec: the cache ends with one row, not three. *)
Lemma final_state_reduced_witness :
  exists out self' h c,
    cell_contract demo_cell /\
    forward demo_cell (init 1 2 inner) scenario_x scenario_seed scenario_seed
            scenario_initials 2 = (Ok out, self') /\
    last_state self' = Some (Tensor h, Tensor c) /\
    length h = 1 /\ length c = 1.
Proof.
  destruct (forward demo_cell (init 1 2 inner) scenario_x scenario_seed
                    scenario_seed scenario_initials 2)
    as [[out|ex] self'] eqn:Hfw; [|vm_compute in Hfw; discriminate].
  destruct (@final_state_reduced _ _ _ _ _ _ _ _ _ demo_cell_contract Hfw)
    as (x' & h & c & Hx & Hls & Hh & Hc & _).
  vm_compute in Hx. injection Hx as <-.
  exists out, self', h, c.
  split; [exact demo_cell_contract|]. split; [reflexivity|].
  split; [exact Hls|]. split; [exact Hh | exact Hc].
Defined.

(** The episode inputs under both merge modes. *)
Lemma mode_equivalence_witness :
  flatten 1 episode_x = Ok episode_x /\
  length episode_x / length episode_hx = 1 /\
  fst (forward demo_cell (init 1 2 outer) episode_x episode_hx episode_cx
               episode_initials 2)
  = fst (forward demo_cell (init 1 2 inner) episode_x episode_hx episode_cx
                 episode_initials 2) /\
  exists out, fst (forward demo_cell (init 1 2 outer) episode_x episode_hx
                           episode_cx episode_initials 2) = Ok out.
Proof.
  assert (Hx : flatten 1 episode_x = Ok episode_x)
    by (vm_compute; reflexivity).
  assert (Hms : length episode_x / length episode_hx = 1) by reflexivity.
  split; [exact Hx|]. split; [exact Hms|]. split.
  - exact (proj1 (proj2 (@mode_equivalence demo_cell 1 2 episode_x episode_hx
                           episode_cx episode_initials 2 episode_x Hx Hms))).
  - eexists. vm_compute. reflexivity.
Defined.


(** A fresh module asked for the state of two sequences. *)
Lemma first_get_state_witness :
  last_state (init 1 2 inner) = None /\
  (fst (get_state (init 1 2 inner) [true; false]) = Raise AssertionError <->
   In false [true; false]) /\
  fst (get_state (init 1 2 inner) [true; false]) = Raise AssertionError /\
  fst (get_state (init 1 2 inner) [true; true])
  = Ok {| sd_hx := zeros 2 2; sd_cx := zeros 2 2;
          sd_initials := [1%Qc; 1%Qc] |}.
Proof.
  split; [reflexivity|].
  split; [exact (proj1 (@first_get_state (init 1 2 inner) [true; false]
                          eq_refl))|].
  split; [vm_compute; reflexivity|].
  pose proof (proj2 (proj2 (proj2 (@first_get_state (init 1 2 inner)
                                     [true; true] eq_refl)))) as H.
  simpl in H. rewrite H; [reflexivity|].
  simpl. intuition discriminate.
Defined.

(** C10, the third part, on the code.  On a fresh module of two units,
    [get_state([True])] returns a zero row for the flagged sequence and
    leaves it in the cache, as numpy arrays.  A following
    [get_state([False])] does not see that zero row: it raises an
    attribute error at line 151. *)
Theorem get_state_twice_raises :
  let fresh := init 1 2 inner in
  (exists d,
      fst (get_state fresh [true]) = Ok d /\
      sd_hx d = zeros 1 2 /\ sd_cx d = zeros 1 2 /\
      last_state (snd (get_state fresh [true]))
      = Some (NDArray (zeros 1 2), NDArray (zeros 1 2))) /\
  fst (get_state (snd (get_state fresh [true])) [false])
  = Raise AttributeError.
Proof.
  intros fresh.
  destruct (get_state fresh [true]) as [[d|ex] self1] eqn:H;
    [|vm_compute in H; discriminate].
  split.
  - exists d. split; [reflexivity|].
    vm_compute in H. injection H as <- <-. repeat split.
  - simpl. now rewrite (@get_state_after_get_state _ _ _ _ [false] H).
Qed.

(** * Further properties of [forward] and [get_state] *)

(** ** What [forward] reads of the module *)

Lemma timestep_loop_fields (lstm_cell : matrix -> state -> result state)
      (a b : LSTM) (ms timesteps : nat) (xs : list (matrix * list Qc)) :
  num_units a = num_units b ->
  multi_sample_merge_mode a = multi_sample_merge_mode b ->
  forall (i : nat) (s : state),
    timestep_loop lstm_cell a ms timesteps i xs s
    = timestep_loop lstm_cell b ms timesteps i xs s.
Proof.
  intros Hu Hm. induction xs as [|[x initial] xs IH]; intros i s;
    [reflexivity|].
  cbn [timestep_loop].
  assert (E : timestep lstm_cell a ms timesteps i x initial s
              = timestep lstm_cell b ms timesteps i x initial s).
  { unfold timestep, expand_cond, reduce_cond. now rewrite Hu, Hm. }
  rewrite E. step Et. destruct a0 as [[o s1] e]. now rewrite IH.
Qed.

(** X1.  [forward] never reads the cache: the run is the same whatever
    [last_state] holds, and so are the output and, when the call returns,
    the state it caches. *)
Theorem forward_ignores_cache
        (lstm_cell : matrix -> state -> result state) (self : LSTM)
        (cache : option (array * array))
        (x hx cx : matrix) (initials : list Qc) (timesteps : nat) :
  forward_body lstm_cell (set_last_state self cache) x hx cx initials
               timesteps
  = forward_body lstm_cell self x hx cx initials timesteps /\
  fst (forward lstm_cell (set_last_state self cache) x hx cx initials
               timesteps)
  = fst (forward lstm_cell self x hx cx initials timesteps) /\
  forall out self1 self2,
    forward lstm_cell (set_last_state self cache) x hx cx initials timesteps
    = (Ok out, self1) ->
    forward lstm_cell self x hx cx initials timesteps = (Ok out, self2) ->
    last_state self1 = last_state self2.
Proof.
  assert (Hbody : forward_body lstm_cell (set_last_state self cache) x hx cx
                               initials timesteps
                  = forward_body lstm_cell self x hx cx initials timesteps).
  { unfold forward_body. cbn [set_last_state inp_size num_units].
    step Ex. step Ehw. step Ecw. step Emod. step Ezero. step Ems. step Ebs.
    step Eb. step Ehx. step Ecx. step Exs. step En. step Elen. step Einits.
    erewrite timestep_loop_fields with (b := self); reflexivity. }
  split; [exact Hbody|]. unfold forward. rewrite Hbody.
  destruct (forward_body lstm_cell self x hx cx initials timesteps) as [r|ex].
  - split; [reflexivity|]. cbn. intros out self1 self2 H1 H2.
    apply (f_equal snd) in H1, H2. cbn [snd] in H1, H2. now subst self1 self2.
  - split; [reflexivity|]. cbn. intros out self1 self2 H. discriminate.
Qed.

(** ** One timestep at a time *)

Lemma timestep_loop_single (lstm_cell : matrix -> state -> result state)
      (a b : LSTM) (ms : nat) (xs : list (matrix * list Qc)) (s : state) :
  num_units a = num_units b -> length xs <= 1 ->
  timestep_loop lstm_cell a ms 1 0 xs s
  = timestep_loop lstm_cell b ms 1 0 xs s.
Proof.
  intros Hu Hlen. destruct xs as [|[x initial] [|p xs]];
    [reflexivity | | simpl in Hlen; lia].
  cbn [timestep_loop].
  assert (E : timestep lstm_cell a ms 1 0 x initial s
              = timestep lstm_cell b ms 1 0 x initial s).
  { unfold timestep, expand_cond, reduce_cond. rewrite Hu. simpl.
    reflexivity. }
  now rewrite E.
Qed.

(** X2.  With [timesteps = 1] the two merge modes are the same, whatever the
    oversampling (the docstring of [__init__]: acting does one timestep at
    a time, therefore both options are equivalent): the state is expanded
    before the only timestep and reduced after it in both. *)
Theorem single_timestep_mode_equivalence
        (lstm_cell : matrix -> state -> result state) (inp units : nat)
        (x hx cx : matrix) (initials : list Qc) :
  forward_body lstm_cell (init inp units outer) x hx cx initials 1
  = forward_body lstm_cell (init inp units inner) x hx cx initials 1 /\
  fst (forward lstm_cell (init inp units outer) x hx cx initials 1)
  = fst (forward lstm_cell (init inp units inner) x hx cx initials 1) /\
  last_state (snd (forward lstm_cell (init inp units outer) x hx cx
                           initials 1))
  = last_state (snd (forward lstm_cell (init inp units inner) x hx cx
                             initials 1)).
Proof.
  assert (Hbody :
            forward_body lstm_cell (init inp units outer) x hx cx initials 1
            = forward_body lstm_cell (init inp units inner) x hx cx
                           initials 1).
  { unfold forward_body. cbn [init inp_size num_units].
    step Ex. step Ehw. step Ecw. step Emod. step Ezero. step Ems. step Ebs.
    step Eb. step Ehx. step Ecx. step Exs. step En. step Elen. step Einits.
    erewrite timestep_loop_single with (b := init inp units inner);
      [reflexivity | reflexivity |].
    unfold view_timesteps in Exs.
    match type of Exs with
    | (if ?c then _ else _) = _ => destruct c; [|discriminate]
    end.
    injection Exs as <-. rewrite length_combine. cbn [view_rows length]. lia. }
  split; [exact Hbody|]. unfold forward. rewrite Hbody.
  destruct (forward_body lstm_cell (init inp units inner) x hx cx initials 1);
    split; reflexivity.
Qed.

(** ** The shapes [forward] accepts *)

(** X3.  A call of [forward] on a module of at least one unit returns only on
    arguments of consistent shapes: with [s] the number of sequences, [x]
    has [timesteps * s * multi_sample] rows, hx, cx and [initials] have
    [timesteps * s] entries each, hx and cx have [num_units] columns, and
    [timesteps], [s] and [multi_sample] are at least 1. *)
Theorem forward_shapes
        (lstm_cell : matrix -> state -> result state) (self : LSTM)
        (x hx cx : matrix) (initials : list Qc) (timesteps : nat) (r : run) :
  0 < num_units self ->
  forward_body lstm_cell self x hx cx initials timesteps = Ok r ->
  exists x' s,
    flatten (inp_size self) x = Ok x' /\
    1 <= timesteps /\ 1 <= s /\ 1 <= run_multi_sample r /\
    run_batch_size r = s * run_multi_sample r /\
    length x' = timesteps * s * run_multi_sample r /\
    length hx = timesteps * s /\
    length cx = timesteps * s /\
    length initials = timesteps * s /\
    Forall (fun row => length row = num_units self) hx /\
    Forall (fun row => length row = num_units self) cx.
Proof.
  intros Hu Hrun. pose proof Hrun as H. apply forward_body_Ok in H.
  destruct H as (x' & hx0 & cx0 & xs & inits & out & Ex & Ehw & Ecw & Hhx &
                 Hmod & Hms & Ht & Hbs & Hms0 & Ehx & Ecx & Exs & Hlen & _).
  destruct (run_locals Hrun) as (x1 & Ex1 & _ & _ & Hx' & _).
  rewrite Ex in Ex1. injection Ex1 as <-.
  apply has_width_Forall in Ehw, Ecw.
  apply view_first_Ok in Ehx, Ecx.
  destruct Ehx as (_ & Hnh & _), Ecx as (_ & Hnc & _).
  rewrite (length_concat_width Ehw) in Hnh.
  rewrite (length_concat_width Ecw) in Hnc.
  apply Nat.mul_cancel_r in Hnh, Hnc; try lia.
  set (s := run_batch_size r / run_multi_sample r) in *.
  set (ms := run_multi_sample r) in *. set (bs := run_batch_size r) in *.
  assert (Hx : length x' = length hx * ms).
  { apply Nat.Div0.div_exact in Hmod. rewrite <- Hms in Hmod. exact Hmod. }
  assert (Hb : bs = s * ms).
  { rewrite Hx' in Hx. rewrite Hnh in Hx.
    rewrite <- Nat.mul_assoc in Hx. now apply Nat.mul_cancel_l in Hx. }
  exists x', s. split; [exact Ex|].
  split; [lia|]. split; [nia|]. split; [lia|]. split; [exact Hb|].
  split; [rewrite Hx, Hnh; reflexivity|].
  split; [exact Hnh|]. split; [exact Hnc|].
  split; [|split; assumption].
  rewrite Hlen, Hb.
  replace (s * ms * timesteps) with (timesteps * s * ms) by lia.
  now apply Nat.div_mul.
Qed.

(** ** The rows of the output *)

Lemma slice_concat (A : Type) (l : list (list A)) (n : nat) :
  Forall (fun g => length g = n) l ->
  forall i g, nth_error l i = Some g ->
              firstn n (skipn (i * n) (concat l)) = g.
Proof.
  induction 1 as [|g0 l Hg Hl IH]; intros i g Hi.
  - now rewrite nth_error_nil in Hi.
  - destruct i as [|i]; simpl in Hi |- *.
    + injection Hi as <-.
      rewrite firstn_app, <- Hg, firstn_all, Nat.sub_diag. simpl.
      apply app_nil_r.
    + replace (n + i * n) with (i * n + length g0) by lia.
      rewrite <- skipn_skipn, skipn_app, skipn_all, Nat.sub_diag. simpl.
      now apply IH.
Qed.

(** X5.  In a run that returns, rows [i * batch_size] to
    [(i + 1) * batch_size - 1] of the output are the hx that the cell
    returned at timestep [i]. *)
Theorem output_rows_of_timestep
        (lstm_cell : matrix -> state -> result state) (self : LSTM)
        (x hx cx : matrix) (initials : list Qc) (timesteps : nat) (r : run) :
  cell_contract lstm_cell ->
  forward_body lstm_cell self x hx cx initials timesteps = Ok r ->
  forall i e,
    nth_error (run_log r) i = Some e ->
    firstn (run_batch_size r) (skipn (i * run_batch_size r) (run_out r))
    = fst (log_cell e).
Proof.
  intros Hcell Hrun i e He.
  pose proof Hrun as Hlog. apply forward_body_log in Hlog.
  destruct Hlog as (_ & _ & _ & _ & _ & (out & -> & Hcat) & _).
  pose proof Hrun as Hrows. apply forward_rows in Hrows; [|exact Hcell].
  destruct Hrows as (Hrows & _).
  apply torch_cat_Ok in Hcat. rewrite Hcat.
  apply slice_concat.
  - apply Forall_map. revert Hrows. apply Forall_impl.
    intros e' (_ & _ & _ & _ & Hoh & _). exact Hoh.
  - now rewrite nth_error_map, He.
Qed.

(** ** The samples of a sequence *)

Lemma mul_mask_rows_eq (h : matrix) (mask : list Qc) (f : matrix)
      (j j' : nat) :
  length h = length mask ->
  mul_mask h mask = Ok f ->
  nth_error h j = nth_error h j' ->
  nth_error mask j = nth_error mask j' ->
  nth_error f j = nth_error f j'.
Proof.
  intros Hlen Hf Hh Hm.
  destruct (mul_mask_rows h mask Hlen Hf) as [Hl Hrows].
  assert (Hnone : forall k, nth_error h k = None -> nth_error f k = None).
  { intros k Hk. apply nth_error_None. apply nth_error_None in Hk. lia. }
  destruct (nth_error h j) as [r|] eqn:Ej.
  - assert (Hj : j < length mask)
      by (rewrite <- Hlen; apply nth_error_Some; congruence).
    destruct (nth_error mask j) as [s|] eqn:Es;
      [|apply nth_error_None in Es; lia].
    rewrite (Hrows j r s Ej Es). symmetry. now apply Hrows.
  - rewrite (Hnone j Ej). symmetry. apply Hnone. now symmetry.
Qed.

(** The flag of row [j] at timestep [i] is entry
    [(i * batch_size + j) // multi_sample] of [initials]. *)
Lemma log_initial_entry
      (lstm_cell : matrix -> state -> result state) (self : LSTM)
      (x hx cx : matrix) (initials : list Qc) (timesteps : nat) (r : run)
      (i : nat) (e : step_log) (j : nat) :
  forward_body lstm_cell self x hx cx initials timesteps = Ok r ->
  nth_error (run_log r) i = Some e ->
  j < run_batch_size r ->
  nth_error (log_initial e) j
  = nth_error initials ((i * run_batch_size r + j) / run_multi_sample r).
Proof.
  intros Hrun He Hj.
  pose proof Hrun as Hlog. apply forward_body_log in Hlog.
  destruct Hlog as (_ & _ & Hms & _ & _ & _ & Hk).
  destruct (Hk i e He) as (_ & _ & _ & Hslice).
  rewrite Hslice, nth_error_firstn.
  apply Nat.ltb_lt in Hj. rewrite Hj, nth_error_skipn.
  destruct (Nat.ltb_spec 1 (run_multi_sample r)) as [Hgt|Hle].
  - apply nth_error_repeat_interleave. lia.
  - replace (run_multi_sample r) with 1 by lia. now rewrite Nat.div_1_r.
Qed.

(** X6.  Under inner mode, at every timestep, and under outer mode at the first
    timestep, the samples of a sequence enter the cell with the same state
    (the docstring of [__init__]: every timestep in the sequence has the
    same input state for each sample): rows [j] and [j'] of the same group
    of [multi_sample] rows are equal in the hx and in the cx passed to the
    cell. *)
Theorem samples_share_state
        (lstm_cell : matrix -> state -> result state) (self : LSTM)
        (x hx cx : matrix) (initials : list Qc) (timesteps : nat) (r : run) :
  cell_contract lstm_cell ->
  forward_body lstm_cell self x hx cx initials timesteps = Ok r ->
  forall i e,
    nth_error (run_log r) i = Some e ->
    multi_sample_merge_mode self = inner \/ i = 0 ->
    forall j j',
      j < run_batch_size r -> j' < run_batch_size r ->
      j / run_multi_sample r = j' / run_multi_sample r ->
      nth_error (fst (log_fed e)) j = nth_error (fst (log_fed e)) j' /\
      nth_error (snd (log_fed e)) j = nth_error (snd (log_fed e)) j'.
Proof.
  intros Hcell Hrun i e He Hmode j j' Hj Hj' Hgroup.
  pose proof Hrun as Hlog. apply forward_body_log in Hlog.
  destruct Hlog as (_ & _ & Hms & Hall & _ & _ & Hk).
  destruct (Hk i e He) as (Hi & _ & Hini & _).
  pose proof Hrun as Hrows. apply forward_rows in Hrows; [|exact Hcell].
  destruct Hrows as (Hrows & _).
  pose proof (proj1 (Forall_forall _ _) Hall e (nth_error_In _ _ He)) as Hit.
  pose proof (proj1 (Forall_forall _ _) Hrows e (nth_error_In _ _ He))
    as (Hph & Hpc & _).
  destruct (Nat.ltb_spec 1 (run_multi_sample r)) as [Hgt|Hle].
  2:{ assert (E1 : run_multi_sample r = 1) by lia.
      rewrite E1, !Nat.div_1_r in Hgroup. now subst j'. }
  assert (Hex : log_expanded e = true).
  { rewrite (it_expanded Hit), Hi. apply expand_cond_iff. tauto. }
  pose proof (it_pre Hit) as Hpre. rewrite Hex in Hpre.
  assert (Hflag : nth_error (one_minus (log_initial e)) j
                  = nth_error (one_minus (log_initial e)) j').
  { rewrite !nth_error_one_minus.
    rewrite (@log_initial_entry _ _ _ _ _ _ _ _ _ _ j Hrun He Hj).
    rewrite (@log_initial_entry _ _ _ _ _ _ _ _ _ _ j' Hrun He Hj').
    rewrite (batch_size_multiple Hcell Hrun), Nat.mul_assoc.
    rewrite !Nat.div_add_l by exact Hms. now rewrite Hgroup. }
  split.
  - apply (mul_mask_rows_eq (fst (log_pre e)) (one_minus (log_initial e)));
      [rewrite length_one_minus; congruence | exact (it_fed_h Hit) |
       | exact Hflag].
    rewrite Hpre. simpl.
    rewrite !nth_error_repeat_interleave by lia. now rewrite Hgroup.
  - apply (mul_mask_rows_eq (snd (log_pre e)) (one_minus (log_initial e)));
      [rewrite length_one_minus; congruence | exact (it_fed_c Hit) |
       | exact Hflag].
    rewrite Hpre. simpl.
    rewrite !nth_error_repeat_interleave by lia. now rewrite Hgroup.
Qed.

(** ** [get_state] on a cache that [forward] has set *)




(** X9.  A cache of one sequence serves a batch of any size: with no flag set,
    [get_state] returns the cached row once per entry of [initials] (the
    product on line 153 broadcasts the row), and the assertions on the row
    count pass. *)
Theorem get_state_one_row_cache (self : LSTM) (hrow crow : row)
        (initials : list bool) :
  last_state self = Some (Tensor [hrow], Tensor [crow]) ->
  Forall (fun b => b = false) initials ->
  let n := length initials in
  get_state self initials
  = (Ok {| sd_hx := repeat hrow n; sd_cx := repeat crow n;
           sd_initials := repeat 0%Qc n |},
     set_last_state self
       (Some (NDArray (repeat hrow n), NDArray (repeat crow n)))).
Proof.
  intros Hls Hall n.
  assert (Hmul : forall r0 : row,
             mul_mask [r0] (repeat 1%Qc n) = Ok (repeat r0 n)).
  { intros r0. unfold mul_mask. rewrite repeat_length. cbn [length].
    destruct (Nat.eqb_spec 1 n) as [<-|_].
    - simpl. now rewrite scale_one.
    - simpl. f_equal. clear. induction n as [|n IH]; simpl; [reflexivity|].
      now rewrite scale_one, IH. }
  unfold get_state. rewrite Hls. cbn [cpu_numpy bind].
  rewrite length_astype, (astype_all_false Hall), one_minus_repeat_0.
  fold n. rewrite !Hmul. cbn [bind].
  rewrite !repeat_length, Nat.eqb_refl. reflexivity.
Qed.

(** ** [get_state] on a cache of another batch size *)

(** X10.  When the cache and [initials] disagree on the batch size and neither
    is 1, the product on line 153 cannot broadcast: [get_state] raises a
    value error and leaves the cache as it was. *)
Theorem get_state_batch_mismatch (self : LSTM) (h c : matrix)
        (initials : list bool) :
  last_state self = Some (Tensor h, Tensor c) ->
  length h <> length initials -> length h <> 1 -> length initials <> 1 ->
  get_state self initials = (Raise ValueError, self).
Proof.
  intros Hls Hne Hh1 Hi1. unfold get_state. rewrite Hls.
  cbn [cpu_numpy bind]. unfold mul_mask at 1.
  rewrite length_one_minus, length_astype.
  destruct (Nat.eqb_spec (length h) (length initials)); [contradiction|].
  destruct (Nat.eqb_spec (length h) 1); [contradiction|].
  destruct (Nat.eqb_spec (length initials) 1); [contradiction|].
  reflexivity.
Qed.

(** X11.  When [initials] has one entry and the cache has another number of
    rows, the product on line 153 broadcasts the flag over the cached
    rows and line 153 stores the result before the assertion of line 155
    fails.  The call raises an assertion error, but the cache now holds
    numpy arrays, and every later [get_state] raises an attribute error
    until [forward] sets the cache again. *)
Theorem get_state_failed_assert_keeps_write (self : LSTM) (h c : matrix)
        (initials : list bool) :
  last_state self = Some (Tensor h, Tensor c) ->
  length initials = 1 -> length h <> 1 -> length c = length h ->
  exists hm cm,
    get_state self initials
    = (Raise AssertionError,
       set_last_state self (Some (NDArray hm, NDArray cm))) /\
    length hm = length h /\ length cm = length c /\
    forall initials2,
      fst (get_state (snd (get_state self initials)) initials2)
      = Raise AttributeError.
Proof.
  intros Hls Hi Hh Hc.
  set (mask := one_minus (astype_float32 initials)).
  assert (Hlm : length mask = 1)
    by (unfold mask; now rewrite length_one_minus, length_astype).
  assert (Hmul : forall m : matrix,
             length m <> 1 ->
             mul_mask m mask = Ok (map (fun r => scale r (hd 0%Qc mask)) m)).
  { intros m Hm. unfold mul_mask. rewrite Hlm.
    destruct (Nat.eqb_spec (length m) 1); [contradiction|]. reflexivity. }
  exists (map (fun r => scale r (hd 0%Qc mask)) h),
         (map (fun r => scale r (hd 0%Qc mask)) c).
  set (g := fun r : row => scale r (hd 0%Qc mask)).
  assert (Hget : get_state self initials
                 = (Raise AssertionError,
                    set_last_state self
                      (Some (NDArray (map g h), NDArray (map g c))))).
  { unfold get_state. rewrite Hls. cbn [cpu_numpy bind]. fold mask.
    rewrite (Hmul h Hh), (Hmul c) by congruence. cbn [bind].
    rewrite length_astype, !length_map, Hi.
    destruct (Nat.eqb_spec (length h) 1); [contradiction|]. reflexivity. }
  split; [exact Hget|]. split; [apply length_map|]. split; [apply length_map|].
  intros initials2. rewrite Hget. reflexivity.
Qed.

(** ** An episode start at the first timestep *)















(** ** [get_state] and [forward] in turn *)

Lemma scale_idem (r : row) (s : Qc) :
  (s * s)%Qc = s -> scale (scale r s) s = scale r s.
Proof.
  intros Hs. unfold scale. rewrite map_map. apply map_ext. intros v.
  rewrite <- Qcmult_assoc. now rewrite Hs.
Qed.

Lemma mask_idem (initials : list bool) :
  Forall (fun s => (s * s)%Qc = s) (one_minus (astype_float32 initials)).
Proof.
  induction initials as [|[|] l IH]; simpl; constructor; try exact IH; ring.
Qed.

(** Masking twice with a mask of zeros and ones is masking once. *)
Lemma mul_mask_idem (h : matrix) (mask : list Qc) (f : matrix) :
  Forall (fun s => (s * s)%Qc = s) mask ->
  mul_mask h mask = Ok f -> length f = length mask ->
  mul_mask f mask = Ok f.
Proof.
  intros Hidem Hf Hlen.
  pose proof (mul_mask_scaled h mask Hf Hlen) as Hrows.
  unfold mul_mask. rewrite Hlen, Nat.eqb_refl. f_equal.
  clear Hf h. revert f Hlen Hrows.
  induction Hidem as [|s mask Hs _ IH]; intros [|r f] Hlen Hrows;
    simpl in Hlen; try discriminate; [reflexivity|].
  cbn [combine map fst snd]. f_equal.
  - destruct (Hrows 0 s eq_refl) as [r0 Hr0]. injection Hr0 as ->.
    now apply scale_idem.
  - apply IH; [lia|]. intros j s' Hj. exact (Hrows (S j) s' Hj).
Qed.

(** X12.  The acting step: [get_state], then [forward] on one timestep with the
    state and the initials that [get_state] returned, without
    oversampling.  The reset of lines 95-97 then changes nothing: the cell
    receives exactly the hx and cx that [get_state] returned, whose flagged
    rows [get_state] had zeroed already. *)
Theorem reset_after_get_state
        (lstm_cell : matrix -> state -> result state) (self self1 : LSTM)
        (flags : list bool) (d : state_dict) (x : matrix) (r : run) :
  get_state self flags = (Ok d, self1) ->
  forward_body lstm_cell self1 x (sd_hx d) (sd_cx d) (sd_initials d) 1
  = Ok r ->
  run_multi_sample r = 1 ->
  exists e,
    run_log r = [e] /\
    log_carried e = (sd_hx d, sd_cx d) /\
    log_fed e = (sd_hx d, sd_cx d).
Proof.
  intros Hget Hrun Hms1.
  apply get_state_Ok in Hget.
  destruct Hget as (h & c & _ & Hmh & Hmc & Hlh & Hlc & Hini & _).
  pose proof Hrun as H. apply forward_body_Ok in H.
  destruct H as (x' & hx0 & cx0 & xs & inits & out & Ex & Ehw & Ecw & Hhx &
                 Hmod & Hms & _ & Hbs & _ & Ehx & Ecx & _).
  apply has_width_Forall in Ehw, Ecw.
  rewrite Hms1 in Hms, Ehx, Ecx. rewrite Nat.div_1_r in Hbs, Ehx, Ecx.
  assert (Hb : run_batch_size r = length flags).
  { apply Nat.Div0.div_exact in Hmod. rewrite <- Hms in Hmod. lia. }
  clear Ehx Ecx hx0 cx0.
  pose proof Hrun as Hlog. apply forward_body_log in Hlog.
  destruct Hlog as (Hl & _ & _ & Hall & (hx0 & cx0 & Ehx & Ecx & Hch) & _ & Hk).
  rewrite Hms1, Nat.div_1_r in Ehx, Ecx.
  apply view_first_Ok in Ehx, Ecx.
  destruct Ehx as (_ & _ & ->), Ecx as (_ & _ & ->).
  rewrite !view_rows_concat_firstn with (w := num_units self1) in Hch
    by (try assumption; lia).
  rewrite Hb in Hch. rewrite <- Hlh in Hch at 1. rewrite <- Hlc in Hch.
  rewrite !firstn_all in Hch.
  destruct (run_log r) as [|e [|e1 es]] eqn:Elog; try discriminate.
  exists e. split; [reflexivity|].
  destruct Hch as [Hcar _].
  inversion Hall as [|e0 es0 Hit _]; subst e0 es0.
  destruct (Hk 0 e eq_refl) as (_ & _ & _ & Hslice).
  rewrite Hms1 in Hslice. cbn [Nat.ltb Nat.leb Nat.mul skipn] in Hslice.
  rewrite Hb, Hini, <- (length_astype flags), firstn_all in Hslice.
  pose proof (it_expanded Hit) as Hex. unfold expand_cond in Hex.
  rewrite Hms1 in Hex. cbn in Hex.
  pose proof (it_pre Hit) as Hpre. rewrite Hex, Hcar in Hpre.
  pose proof (it_fed_h Hit) as Hfh. pose proof (it_fed_c Hit) as Hfc.
  rewrite Hpre, Hslice in Hfh, Hfc. cbn [fst snd] in Hfh, Hfc.
  assert (Ih : mul_mask (sd_hx d) (one_minus (astype_float32 flags))
               = Ok (sd_hx d)).
  { eapply mul_mask_idem; [apply mask_idem | exact Hmh |].
    now rewrite length_one_minus, length_astype. }
  assert (Ic : mul_mask (sd_cx d) (one_minus (astype_float32 flags))
               = Ok (sd_cx d)).
  { eapply mul_mask_idem; [apply mask_idem | exact Hmc |].
    now rewrite length_one_minus, length_astype. }
  rewrite Ih in Hfh. rewrite Ic in Hfc.
  injection Hfh as Hfh. injection Hfc as Hfc.
  split; [exact Hcar|].
  destruct (log_fed e) as [fh fc]. simpl in Hfh, Hfc. now subst fh fc.
Qed.

Lemma get_state_tensor_returns (self : LSTM) (h c : matrix)
      (flags : list bool) :
  last_state self = Some (Tensor h, Tensor c) ->
  length h = length flags -> length c = length flags ->
  exists d self1,
    get_state self flags = (Ok d, self1) /\
    length (sd_hx d) = length flags /\ length (sd_cx d) = length flags.
Proof.
  intros Hls Hh Hc.
  set (mask := one_minus (astype_float32 flags)).
  assert (Hlm : length mask = length flags)
    by (unfold mask; now rewrite length_one_minus, length_astype).
  assert (Hmul : forall m : matrix,
             length m = length flags ->
             exists f, mul_mask m mask = Ok f /\ length f = length flags).
  { intros m Hm. unfold mul_mask. rewrite Hlm, Hm, Nat.eqb_refl.
    eexists. split; [reflexivity|].
    rewrite length_map, length_combine. lia. }
  destruct (Hmul h Hh) as (hm & Ehm & Hlhm).
  destruct (Hmul c Hc) as (cm & Ecm & Hlcm).
  exists {| sd_hx := hm; sd_cx := cm; sd_initials := astype_float32 flags |}.
  eexists. split; [|split; [exact Hlhm | exact Hlcm]].
  unfold get_state. rewrite Hls. cbn [cpu_numpy bind]. fold mask.
  rewrite Ehm, Ecm. cbn [bind].
  rewrite length_astype, Hlhm, Hlcm, Nat.eqb_refl. reflexivity.
Qed.

(** X13.  After a call of [forward] that returned, the cache holds tensors
    again, and [get_state] with one flag per sequence returns, whatever the
    flags: the cycle [get_state], [forward], [get_state] never meets the
    attribute error of two calls of [get_state] in a row. *)
Theorem get_state_after_forward
        (lstm_cell : matrix -> state -> result state) (self : LSTM)
        (x hx cx : matrix) (initials : list Qc) (timesteps : nat)
        (out : matrix) (self' : LSTM) (x' : matrix) (flags : list bool) :
  cell_contract lstm_cell ->
  forward lstm_cell self x hx cx initials timesteps = (Ok out, self') ->
  flatten (inp_size self) x = Ok x' ->
  length flags = length x' / (timesteps * (length x' / length hx)) ->
  exists d self1,
    get_state self' flags = (Ok d, self1) /\
    length (sd_hx d) = length flags /\ length (sd_cx d) = length flags.
Proof.
  intros Hcell Hfw Hx Hflags. apply forward_Ok in Hfw.
  destruct Hfw as (r & Hrun & _ & ->).
  pose proof Hrun as Hrows. apply forward_rows in Hrows; [|exact Hcell].
  destruct Hrows as (_ & Hh & Hc).
  destruct (run_locals Hrun) as (x1 & Ex & Hms & Hbs & _ & _ & _).
  rewrite Hx in Ex. injection Ex as <-.
  rewrite <- Hms, <- Nat.Div0.div_div, <- Hbs in Hflags.
  apply get_state_tensor_returns
    with (h := fst (run_state r)) (c := snd (run_state r));
    [reflexivity | congruence | congruence].
Qed.

(** ** The arguments [forward] rejects *)

(** X4.  On an [x] that flattens to rows [x'], [forward] raises, and leaves the
    module as it was:
    - an assertion error when hx or cx has a row of another width than
      [num_units] (lines 53-54);
    - a zero-division error when hx has no rows (line 58);
    - an assertion error when the rows of [x'] are not a multiple of the
      rows of hx (line 58);
    - a zero-division error when [timesteps] is 0 (line 62);
    - a zero-division error when [x] is empty: [multi_sample] is then 0
      and line 68 divides by it. *)
Theorem forward_rejects
        (lstm_cell : matrix -> state -> result state) (self : LSTM)
        (x hx cx : matrix) (initials : list Qc) (timesteps : nat)
        (x' : matrix) :
  flatten (inp_size self) x = Ok x' ->
  let call := forward lstm_cell self x hx cx initials timesteps in
  (has_width (num_units self) hx && has_width (num_units self) cx = false ->
   call = (Raise AssertionError, self)) /\
  (has_width (num_units self) hx && has_width (num_units self) cx = true ->
   (length hx = 0 -> call = (Raise ZeroDivisionError, self)) /\
   (length hx <> 0 -> length x' mod length hx <> 0 ->
    call = (Raise AssertionError, self)) /\
   (length hx <> 0 -> length x' mod length hx = 0 -> timesteps = 0 ->
    call = (Raise ZeroDivisionError, self)) /\
   (length hx <> 0 -> timesteps <> 0 -> length x' = 0 ->
    call = (Raise ZeroDivisionError, self))).
Proof.
  intros Hx call. subst call. unfold forward, forward_body.
  rewrite Hx. cbn [bind]. split.
  - intros Hw. apply andb_false_iff in Hw.
    destruct (has_width (num_units self) hx); [|reflexivity].
    destruct Hw as [Hw|Hw]; [discriminate|]. now rewrite Hw.
  - intros Hw. apply andb_prop in Hw. destruct Hw as [-> ->].
    cbn [assert bind]. unfold pymod, floordiv.
    split; [intros ->; reflexivity|].
    split; [|split].
    + intros Hhx Hmod.
      destruct (Nat.eqb_spec (length hx) 0); [contradiction|]. cbn [bind].
      destruct (Nat.eqb_spec (length x' mod length hx) 0);
        [contradiction | reflexivity].
    + intros Hhx Hmod ->.
      destruct (Nat.eqb_spec (length hx) 0); [contradiction|]. cbn [bind].
      now rewrite Hmod.
    + intros Hhx Ht Hx0. rewrite Hx0.
      destruct (Nat.eqb_spec (length hx) 0); [contradiction|]. cbn [bind].
      rewrite Nat.Div0.mod_0_l. cbn [Nat.eqb assert bind].
      destruct (Nat.eqb_spec timesteps 0); [contradiction|]. cbn [bind].
      rewrite !Nat.Div0.div_0_l. reflexivity.
Qed.

(** * Concrete runs for the further properties *)

(** The scenario: one sequence, two timesteps, three samples. *)
Lemma forward_shapes_witness :
  0 < num_units (init 1 2 inner) /\
  scenario inner = Ok (the_run (scenario inner)) /\
  exists s,
    run_batch_size (the_run (scenario inner)) = s * 3 /\
    length scenario_x = 2 * s * 3 /\
    length scenario_seed = 2 * s /\ length scenario_initials = 2 * s.
Proof.
  assert (Hu : 0 < num_units (init 1 2 inner)) by (simpl; lia).
  assert (Hrun : scenario inner = Ok (the_run (scenario inner)))
    by (vm_compute; reflexivity).
  split; [exact Hu|]. split; [exact Hrun|].
  destruct (@forward_shapes _ _ _ _ _ _ _ _ Hu Hrun)
    as (x' & s & Hx & _ & _ & _ & Hbs & Hlx & Hlh & _ & Hli & _).
  vm_compute in Hx. injection Hx as <-.
  exists s. repeat split; assumption.
Defined.

(** The scenario under outer: the last three rows of the output are the
    hx of the second timestep. *)
Lemma output_rows_of_timestep_witness :
  cell_contract demo_cell /\
  scenario outer = Ok (the_run (scenario outer)) /\
  exists e,
    nth_error (run_log (the_run (scenario outer))) 1 = Some e /\
    skipn 3 (run_out (the_run (scenario outer))) = fst (log_cell e).
Proof.
  assert (Hrun : scenario outer = Ok (the_run (scenario outer)))
    by (vm_compute; reflexivity).
  split; [exact demo_cell_contract|]. split; [exact Hrun|].
  destruct (nth_error (run_log (the_run (scenario outer))) 1) as [e|] eqn:He;
    [|vm_compute in He; discriminate].
  exists e. split; [reflexivity|].
  rewrite <- (@output_rows_of_timestep _ _ _ _ _ _ _ _ demo_cell_contract
                Hrun 1 e He).
  vm_compute. reflexivity.
Defined.

(** The scenario under inner, second timestep: the first and the third
    sample enter the cell with the same hx. *)
Lemma samples_share_state_witness :
  cell_contract demo_cell /\
  scenario inner = Ok (the_run (scenario inner)) /\
  exists e hrow,
    nth_error (run_log (the_run (scenario inner))) 1 = Some e /\
    nth_error (fst (log_fed e)) 0 = Some hrow /\
    nth_error (fst (log_fed e)) 2 = Some hrow /\
    map this hrow = [3 # 1; 3 # 1]%Q.
Proof.
  assert (Hrun : scenario inner = Ok (the_run (scenario inner)))
    by (vm_compute; reflexivity).
  split; [exact demo_cell_contract|]. split; [exact Hrun|].
  destruct (nth_error (run_log (the_run (scenario inner))) 1) as [e|] eqn:He;
    [|vm_compute in He; discriminate].
  assert (Hm : multi_sample_merge_mode (init 1 2 inner) = inner \/ 1 = 0)
    by (left; reflexivity).
  assert (H0 : 0 < run_batch_size (the_run (scenario inner)))
    by (vm_compute; lia).
  assert (H2 : 2 < run_batch_size (the_run (scenario inner)))
    by (vm_compute; lia).
  assert (Hg : 0 / run_multi_sample (the_run (scenario inner))
               = 2 / run_multi_sample (the_run (scenario inner)))
    by reflexivity.
  destruct (@samples_share_state _ _ _ _ _ _ _ _ demo_cell_contract Hrun
              1 e He Hm 0 2 H0 H2 Hg) as [Hh _].
  assert (Hrow : exists hrow,
             nth_error (fst (log_fed e)) 0 = Some hrow /\
             map this hrow = [3 # 1; 3 # 1]%Q).
  { vm_compute in He. injection He as <-. eexists.
    split; vm_compute; reflexivity. }
  destruct Hrow as (hrow & Hrow & Hval).
  exists e, hrow. split; [reflexivity|]. split; [exact Hrow|].
  split; [now rewrite <- Hh | exact Hval].
Defined.


(** A cache of one sequence asked for three. *)
Lemma get_state_one_row_cache_witness :
  last_state cached_one = Some (Tensor [[q 5; q 6]], Tensor [[q 1; q 1]]) /\
  fst (get_state cached_one [false; false; false])
  = Ok {| sd_hx := [[q 5; q 6]; [q 5; q 6]; [q 5; q 6]];
          sd_cx := [[q 1; q 1]; [q 1; q 1]; [q 1; q 1]];
          sd_initials := [0%Qc; 0%Qc; 0%Qc] |}.
Proof.
  split; [reflexivity|].
  rewrite (@get_state_one_row_cache cached_one [q 5; q 6] [q 1; q 1]
             [false; false; false] eq_refl);
    [reflexivity | repeat constructor].
Defined.

(** A cache of two sequences asked for three. *)
Lemma get_state_batch_mismatch_witness :
  last_state cached_self = Some (Tensor single_hx, Tensor single_cx) /\
  get_state cached_self [false; false; false]
  = (Raise ValueError, cached_self).
Proof.
  split; [reflexivity|].
  apply (@get_state_batch_mismatch cached_self single_hx single_cx);
    [reflexivity | simpl; lia | simpl; lia | simpl; lia].
Defined.

(** A cache of two sequences asked for one: the call fails and the cache
    holds numpy arrays. *)
Lemma get_state_failed_assert_keeps_write_witness :
  last_state cached_self = Some (Tensor single_hx, Tensor single_cx) /\
  fst (get_state cached_self [false]) = Raise AssertionError /\
  last_state (snd (get_state cached_self [false]))
  = Some (NDArray single_hx, NDArray single_cx) /\
  fst (get_state (snd (get_state cached_self [false])) [false; false])
  = Raise AttributeError.
Proof.
  split; [reflexivity|].
  destruct (@get_state_failed_assert_keeps_write cached_self single_hx
              single_cx [false] eq_refl eq_refl)
    as (hm & cm & Hget & _ & _ & Hnext);
    [simpl; lia | reflexivity |].
  split; [now rewrite Hget|].
  split; [vm_compute; reflexivity | apply Hnext].
Defined.


(** The acting step on two sequences, the first one restarting. *)
Lemma reset_after_get_state_witness :
  exists d self1 r e,
    get_state cached_self [true; false] = (Ok d, self1) /\
    forward_body demo_cell self1 single_x (sd_hx d) (sd_cx d)
                 (sd_initials d) 1 = Ok r /\
    run_multi_sample r = 1 /\
    run_log r = [e] /\ log_fed e = (sd_hx d, sd_cx d).
Proof.
  destruct (get_state cached_self [true; false]) as [[d|ex] self1] eqn:Hget;
    [|vm_compute in Hget; discriminate].
  destruct (forward_body demo_cell self1 single_x (sd_hx d) (sd_cx d)
                         (sd_initials d) 1) as [r|ex] eqn:Hrun;
    [|vm_compute in Hget; injection Hget as <- <-;
      vm_compute in Hrun; discriminate].
  assert (Hms : run_multi_sample r = 1).
  { vm_compute in Hget. injection Hget as <- <-.
    vm_compute in Hrun. injection Hrun as <-. reflexivity. }
  destruct (@reset_after_get_state _ _ _ _ _ _ _ Hget Hrun Hms)
    as (e & Hlog & _ & Hfed).
  exists d, self1, r, e. repeat split; assumption.
Defined.

(** One timestep on two sequences, then [get_state] with a flag set. *)
Lemma get_state_after_forward_witness :
  exists out self' d self1,
    cell_contract demo_cell /\
    forward demo_cell cached_self single_x single_hx single_cx
            single_initials 1 = (Ok out, self') /\
    flatten (inp_size cached_self) single_x = Ok single_x /\
    get_state self' [true; false] = (Ok d, self1) /\
    length (sd_hx d) = 2.
Proof.
  destruct (forward demo_cell cached_self single_x single_hx single_cx
                    single_initials 1) as [[out|ex] self'] eqn:Hfw;
    [|vm_compute in Hfw; discriminate].
  assert (Hx : flatten (inp_size cached_self) single_x = Ok single_x)
    by (vm_compute; reflexivity).
  destruct (@get_state_after_forward _ _ _ _ _ _ _ _ _ _ [true; false]
              demo_cell_contract Hfw Hx eq_refl) as (d & self1 & Hget & Hl & _).
  exists out, self', d, self1.
  split; [exact demo_cell_contract|]. split; [reflexivity|].
  split; [exact Hx|]. split; [exact Hget | exact Hl].
Defined.

(** An empty [x] is rejected with a zero-division error. *)
Lemma forward_rejects_witness :
  flatten (inp_size (init 1 2 inner)) [] = Ok [] /\
  forward demo_cell (init 1 2 inner) [] single_hx single_cx single_initials 1
  = (Raise ZeroDivisionError, init 1 2 inner).
Proof.
  assert (Hx : flatten (inp_size (init 1 2 inner)) [] = Ok [])
    by reflexivity.
  split; [exact Hx|].
  destruct (@forward_rejects demo_cell (init 1 2 inner) [] single_hx
              single_cx single_initials 1 [] Hx) as [_ H].
  destruct (H eq_refl) as (_ & _ & _ & H0).
  apply H0; [simpl; lia | lia | reflexivity].
Defined.
